(** * p2p_rust: the chat front end (src/App.vue) and the node contract it drives

    The development has two layers.

    - [Js] and [App] embed the script of [src/App.vue]: JavaScript strings
      as lists of UTF-16 code units, JSON-like values, the component's
      reactive state, and each handler as a function on that state that
      threads the backend through an abstract [Runtime] and records what
      it does in a trace.  An [await] is run to completion: what the user
      or the backend does while a call is pending is a separate action,
      before or after.  [formatTime], the markup and the styles only render
      and are left out.
    - [Node] is the peer-to-peer node behind the five commands.  Its code
      is not part of the front end; it is written down from the
      specification (sections 3, 4, 6 and 7).
    - [Offline] and [Wired] are two worlds for the component to run in:
      no backend at all, and the node of [Node].

    Definitions come first, the theorems follow. *)

From Stdlib Require Import ZArith NArith Ascii String List Lia.
From stdpp Require Import base option list gmap sets.

Local Open Scope Z_scope.

(** ** JavaScript values used by the component *)

Module Js.

(** A JavaScript string is a sequence of 16-bit code units. *)
Definition code_unit := N.
Definition jsstring := list code_unit.

(** An ASCII literal of the source, as code units. *)
Definition lit (s : string) : jsstring :=
  map N_of_ascii (list_ascii_of_string s).

(** [s.length] *)
Definition js_length (s : jsstring) : Z := Z.of_nat (length s).

(** [a + b] on two strings. *)
Definition concat (a b : jsstring) : jsstring := a ++ b.

(** ECMAScript WhiteSpace and LineTerminator code points, the ones
    [String.prototype.trim] strips.  All of them are in the basic
    multilingual plane, so each is one code unit. *)
Definition is_white_space (c : code_unit) : bool :=
  ((c =? 0x0009) || (c =? 0x000B) || (c =? 0x000C) || (c =? 0x0020)
   || (c =? 0x00A0) || (c =? 0x1680)
   || ((0x2000 <=? c) && (c <=? 0x200A))
   || (c =? 0x202F) || (c =? 0x205F) || (c =? 0x3000) || (c =? 0xFEFF))%N.

Definition is_line_terminator (c : code_unit) : bool :=
  ((c =? 0x000A) || (c =? 0x000D) || (c =? 0x2028) || (c =? 0x2029))%N.

Definition is_trimmed (c : code_unit) : bool :=
  is_white_space c || is_line_terminator c.

Fixpoint trim_start (s : jsstring) : jsstring :=
  match s with
  | [] => []
  | c :: s' => if is_trimmed c then trim_start s' else s
  end.

Definition trim_end (s : jsstring) : jsstring :=
  rev (trim_start (rev s)).

(** [s.trim()] *)
Definition trim (s : jsstring) : jsstring := trim_end (trim_start s).

(** ToBoolean on a string: only the empty string is falsy. *)
Definition truthy (s : jsstring) : bool :=
  match s with [] => false | _ :: _ => true end.

(** [s.substring(start, end)]: both indices are clamped to [0, length],
    and swapped when start is the larger one.  A missing [end] is the
    length. *)
Definition clamp (len i : Z) : Z := Z.min (Z.max i 0) len.

Definition substring (s : jsstring) (start : Z) (end_ : option Z) : jsstring :=
  let len := js_length s in
  let final_start := clamp len start in
  let final_end := clamp len (default len end_) in
  let from := Z.min final_start final_end in
  let to := Z.max final_start final_end in
  take (Z.to_nat (to - from)) (drop (Z.to_nat from) s).

(** The values that cross the command boundary are JSON values; numbers
    do not occur in this contract and are left out. *)
#[warnings="-register-all"]
Inductive JsVal :=
  | JUndefined
  | JNull
  | JBool (b : bool)
  | JStr (s : jsstring)
  | JArr (items : list JsVal)
  | JObj (props : list (jsstring * JsVal)).

(** Property read [o.k] on an object given by its entries in source
    order: a later entry for the same key replaces an earlier one. *)
Definition lookup_prop (k : jsstring) (props : list (jsstring * JsVal)) : JsVal :=
  fold_left (fun found kv => if decide (k = kv.1) then kv.2 else found)
    props JUndefined.

(** Outcome of the property read [v.k]: reading a property of [null] or
    [undefined] throws a TypeError ([None]); a read on another primitive
    gives [undefined] for the names used here. *)
Definition get_prop (v : JsVal) (k : jsstring) : option JsVal :=
  match v with
  | JUndefined | JNull => None
  | JObj props => Some (lookup_prop k props)
  | _ => Some JUndefined
  end.

(** [Array.prototype.join] with the given separator pieces already
    converted. *)
Fixpoint join_with (sep : jsstring) (parts : list jsstring) : jsstring :=
  match parts with
  | [] => []
  | [p] => p
  | p :: rest => p ++ sep ++ join_with sep rest
  end.

(** ToString, as the [+] of a string and a value applies it. *)
Fixpoint to_string (v : JsVal) : jsstring :=
  match v with
  | JUndefined => lit "undefined"
  | JNull => lit "null"
  | JBool true => lit "true"
  | JBool false => lit "false"
  | JStr s => s
  | JArr items =>
      join_with (lit ",")
        (map (fun x => match x with
                       | JUndefined | JNull => []
                       | _ => to_string x
                       end) items)
  | JObj _ => lit "[object Object]"
  end.

(** A promise settles one way or the other. *)
Inductive Settled :=
  | Resolve (value : JsVal)
  | Reject (error : JsVal).

End Js.

Import Js.

(** ** The component of App.vue *)

Module App.

(** The refs declared under [// State]. [messagesContainer] holds a DOM
    element, never reassigned by the script; the one write to the element
    ([scrollTop]) is recorded as an effect. *)
Record State := mkState {
  messages : list JsVal;
  inputMessage : jsstring;
  peerID : JsVal;
  addresses : JsVal;
  connectedPeers : JsVal;
  isInitialized : bool;
  joinRoomMode : bool;
  connectPeerMode : bool;
  roomInput : jsstring;
  peerAddressInput : jsstring;
  currentRoom : jsstring;
  copiedIndex : Z
}.

(** The state at [setup]. *)
Definition initial : State :=
  {| messages := []; inputMessage := []; peerID := JStr [];
     addresses := JArr []; connectedPeers := JArr [];
     isInitialized := false; joinRoomMode := false;
     connectPeerMode := false; roomInput := []; peerAddressInput := [];
     currentRoom := []; copiedIndex := -1 |}.

(** Assignment to one ref, [x.value = v]. *)
Definition set_messages (v : list JsVal) (s : State) : State :=
  mkState v (inputMessage s) (peerID s) (addresses s) (connectedPeers s)
    (isInitialized s) (joinRoomMode s) (connectPeerMode s) (roomInput s)
    (peerAddressInput s) (currentRoom s) (copiedIndex s).
Definition set_inputMessage (v : jsstring) (s : State) : State :=
  mkState (messages s) v (peerID s) (addresses s) (connectedPeers s)
    (isInitialized s) (joinRoomMode s) (connectPeerMode s) (roomInput s)
    (peerAddressInput s) (currentRoom s) (copiedIndex s).
Definition set_peerID (v : JsVal) (s : State) : State :=
  mkState (messages s) (inputMessage s) v (addresses s) (connectedPeers s)
    (isInitialized s) (joinRoomMode s) (connectPeerMode s) (roomInput s)
    (peerAddressInput s) (currentRoom s) (copiedIndex s).
Definition set_addresses (v : JsVal) (s : State) : State :=
  mkState (messages s) (inputMessage s) (peerID s) v (connectedPeers s)
    (isInitialized s) (joinRoomMode s) (connectPeerMode s) (roomInput s)
    (peerAddressInput s) (currentRoom s) (copiedIndex s).
Definition set_connectedPeers (v : JsVal) (s : State) : State :=
  mkState (messages s) (inputMessage s) (peerID s) (addresses s) v
    (isInitialized s) (joinRoomMode s) (connectPeerMode s) (roomInput s)
    (peerAddressInput s) (currentRoom s) (copiedIndex s).
Definition set_isInitialized (v : bool) (s : State) : State :=
  mkState (messages s) (inputMessage s) (peerID s) (addresses s)
    (connectedPeers s) v (joinRoomMode s) (connectPeerMode s) (roomInput s)
    (peerAddressInput s) (currentRoom s) (copiedIndex s).
Definition set_joinRoomMode (v : bool) (s : State) : State :=
  mkState (messages s) (inputMessage s) (peerID s) (addresses s)
    (connectedPeers s) (isInitialized s) v (connectPeerMode s) (roomInput s)
    (peerAddressInput s) (currentRoom s) (copiedIndex s).
Definition set_connectPeerMode (v : bool) (s : State) : State :=
  mkState (messages s) (inputMessage s) (peerID s) (addresses s)
    (connectedPeers s) (isInitialized s) (joinRoomMode s) v (roomInput s)
    (peerAddressInput s) (currentRoom s) (copiedIndex s).
Definition set_roomInput (v : jsstring) (s : State) : State :=
  mkState (messages s) (inputMessage s) (peerID s) (addresses s)
    (connectedPeers s) (isInitialized s) (joinRoomMode s)
    (connectPeerMode s) v (peerAddressInput s) (currentRoom s)
    (copiedIndex s).
Definition set_peerAddressInput (v : jsstring) (s : State) : State :=
  mkState (messages s) (inputMessage s) (peerID s) (addresses s)
    (connectedPeers s) (isInitialized s) (joinRoomMode s)
    (connectPeerMode s) (roomInput s) v (currentRoom s) (copiedIndex s).
Definition set_currentRoom (v : jsstring) (s : State) : State :=
  mkState (messages s) (inputMessage s) (peerID s) (addresses s)
    (connectedPeers s) (isInitialized s) (joinRoomMode s)
    (connectPeerMode s) (roomInput s) (peerAddressInput s) v (copiedIndex s).
Definition set_copiedIndex (v : Z) (s : State) : State :=
  mkState (messages s) (inputMessage s) (peerID s) (addresses s)
    (connectedPeers s) (isInitialized s) (joinRoomMode s)
    (connectPeerMode s) (roomInput s) (peerAddressInput s) (currentRoom s) v.

(** [messages.value.push(m)] *)
Definition push_message (m : JsVal) (s : State) : State :=
  set_messages (messages s ++ [m]) s.

(** [let unlisten = null]: the one module variable, [true] once it holds
    the function returned by [listen]. *)
Record Component := mkComponent {
  refs : State;
  unlisten : bool
}.

(** The functions the script hands to timers. *)
Inductive Callback :=
  | CbUpdateNodeInfo      (* setInterval(updateNodeInfo, 5000) *)
  | CbResetCopied.        (* setTimeout(() => { copiedIndex.value = -1 }, 2000) *)

(** What a [catch (error)] block can receive here: the value an awaited
    promise rejected with, or the TypeError of reading a property of
    [null] or [undefined]. *)
Inductive Thrown :=
  | Rejected (error : JsVal)
  | TypeError.

(** Calls that leave the component, in program order. *)
Inductive Effect :=
  | EInvoke (cmd : jsstring) (args : option JsVal)
  | EListen (event : jsstring)
  | EUnlisten
  | EConsoleError (label : jsstring) (error : Thrown)
  | EScrollToBottom
  | ESetInterval (cb : Callback) (ms : Z)
  | ESetTimeout (cb : Callback) (ms : Z)
  | EClipboardWrite (text : jsstring)
  | EPreventDefault
  | EAddKeydownListener
  | ERemoveKeydownListener.

(** What the component calls and cannot see into: Tauri's [invoke], the
    clock behind [new Date().toISOString()] and the clipboard.  [W] is
    the state of that outside world. *)
Class Runtime (W : Type) := {
  rt_invoke : jsstring -> option JsVal -> W -> Settled * W;
  rt_now_iso : W -> jsstring;
  rt_clipboard_write : jsstring -> W -> Settled * W
}.

(** A handler reads and writes the component, talks to the world and
    leaves a trace. *)
Definition Handler (W A : Type) : Type :=
  Component -> W -> A * Component * W * list Effect.

Section Handlers.
Context {W : Type} `{RT : Runtime W}.

Definition h_ret {A} (a : A) : Handler W A := fun c w => (a, c, w, []).

Definition h_bind {A B} (m : Handler W A) (k : A -> Handler W B)
  : Handler W B :=
  fun c w =>
    let '(a, c1, w1, t1) := m c w in
    let '(b, c2, w2, t2) := k a c1 w1 in
    (b, c2, w2, t1 ++ t2).

Notation "x <- m ;; k" := (h_bind m (fun x => k))
  (at level 100, m at next level, right associativity, only parsing).
Notation "m ;;; k" := (h_bind m (fun _ => k))
  (at level 100, right associativity, only parsing).

Definition emit (e : Effect) : Handler W unit := fun c w => (tt, c, w, [e]).
Definition read : Handler W State := fun c w => (refs c, c, w, []).
Definition assign (f : State -> State) : Handler W unit :=
  fun c w => (tt, {| refs := f (refs c); unlisten := unlisten c |}, w, []).

(** [await invoke(cmd, args)] *)
Definition invoke (cmd : jsstring) (args : option JsVal) : Handler W Settled :=
  fun c w =>
    let '(r, w') := rt_invoke cmd args w in (r, c, w', [EInvoke cmd args]).

Definition now_iso : Handler W jsstring := fun c w => (rt_now_iso w, c, w, []).

Definition clipboard_write (text : jsstring) : Handler W Settled :=
  fun c w =>
    let '(r, w') := rt_clipboard_write text w in
    (r, c, w', [EClipboardWrite text]).

Definition console_error (label : jsstring) (error : Thrown) : Handler W unit :=
  emit (EConsoleError label error).

(** [scrollToBottom()]: the call returns at [await nextTick()]; the later
    write to [scrollTop] touches the DOM element only. *)
Definition scrollToBottom : Handler W unit := emit EScrollToBottom.

(** [addSystemMessage(content)] *)
Definition addSystemMessage (content : jsstring) : Handler W unit :=
  ts <- now_iso ;;
  assign (push_message
            (JObj [(lit "from", JStr (lit "System"));
                   (lit "content", JStr content);
                   (lit "timestamp", JStr ts);
                   (lit "is_self", JBool false)])) ;;;
  scrollToBottom.

(** [updateNodeInfo()], from the point where the awaited
    [invoke('get_node_info')] has settled with [r]. *)
Definition updateNodeInfo_settled (r : Settled) : Handler W unit :=
  match r with
  | Resolve info =>
      match get_prop info (lit "addresses") with
      | None => console_error (lit "Failed to get node info:") TypeError
      | Some a =>
          assign (set_addresses a) ;;;
          match get_prop info (lit "connected_peers") with
          | None => console_error (lit "Failed to get node info:") TypeError
          | Some p => assign (set_connectedPeers p)
          end
      end
  | Reject error =>
      console_error (lit "Failed to get node info:") (Rejected error)
  end.

(** [updateNodeInfo()] run to completion, as a timer runs it. *)
Definition updateNodeInfo : Handler W unit :=
  r <- invoke (lit "get_node_info") None ;;
  updateNodeInfo_settled r.

(** [initP2P()].  [updateNodeInfo()] is called without [await]: it issues
    its [invoke] and returns a pending promise, [setInterval] runs next,
    and the rest of [updateNodeInfo] runs when the reply is in. *)
Definition initP2P : Handler W unit :=
  r <- invoke (lit "init_p2p") None ;;
  match r with
  | Resolve id =>
      assign (set_peerID id) ;;;
      assign (set_isInitialized true) ;;;
      info <- invoke (lit "get_node_info") None ;;
      emit (ESetInterval CbUpdateNodeInfo 5000) ;;;
      updateNodeInfo_settled info
  | Reject error =>
      console_error (lit "Failed to initialize P2P:") (Rejected error) ;;;
      addSystemMessage
        (concat (0x274C%N :: lit " Failed to initialize P2P node: ")
                (to_string error))
  end.

(** [sendMessage()] *)
Definition sendMessage : Handler W unit :=
  s <- read ;;
  if negb (truthy (trim (inputMessage s))) then h_ret tt else
  r <- invoke (lit "send_message")
         (Some (JObj [(lit "message", JStr (inputMessage s))])) ;;
  match r with
  | Resolve _ => assign (set_inputMessage [])
  | Reject error =>
      console_error (lit "Failed to send message:") (Rejected error) ;;;
      addSystemMessage
        (concat (0x26A0%N :: lit " Failed to send message: ") (to_string error))
  end.

(** [joinRoom()] *)
Definition joinRoom : Handler W unit :=
  s <- read ;;
  if negb (truthy (trim (roomInput s))) then h_ret tt else
  r <- invoke (lit "join_room")
         (Some (JObj [(lit "roomName", JStr (roomInput s))])) ;;
  match r with
  | Resolve _ =>
      s1 <- read ;;
      assign (set_currentRoom (roomInput s1)) ;;;
      assign (set_joinRoomMode false) ;;;
      assign (set_roomInput [])
  | Reject error =>
      console_error (lit "Failed to join room:") (Rejected error) ;;;
      addSystemMessage
        (concat (0x26A0%N :: lit " Failed to join room: ") (to_string error))
  end.

(** [connectToPeer()] *)
Definition connectToPeer : Handler W unit :=
  s <- read ;;
  if negb (truthy (trim (peerAddressInput s))) then h_ret tt else
  r <- invoke (lit "connect_to_peer")
         (Some (JObj [(lit "addr", JStr (peerAddressInput s))])) ;;
  match r with
  | Resolve _ =>
      assign (set_connectPeerMode false) ;;;
      assign (set_peerAddressInput [])
  | Reject error =>
      console_error (lit "Failed to connect to peer:") (Rejected error) ;;;
      addSystemMessage
        (concat (0x26A0%N :: lit " Failed to connect to peer: ")
                (to_string error))
  end.

(** [handleKeydown(event)], on [event.ctrlKey] and [event.key]. *)
Definition handleKeydown (ctrlKey : bool) (key : jsstring) : Handler W unit :=
  (if ctrlKey && bool_decide (key = lit "j")
   then emit EPreventDefault ;;; assign (set_joinRoomMode true)
   else h_ret tt) ;;;
  (if ctrlKey && bool_decide (key = lit "p")
   then emit EPreventDefault ;;; assign (set_connectPeerMode true)
   else h_ret tt).

(** [copyAddress(addr, index)] *)
Definition copyAddress (addr : jsstring) (index : Z) : Handler W unit :=
  r <- clipboard_write addr ;;
  match r with
  | Resolve _ =>
      assign (set_copiedIndex index) ;;;
      emit (ESetTimeout CbResetCopied 2000)
  | Reject error => console_error (lit "Failed to copy:") (Rejected error)
  end.

(** The listener of [listen('chat-message', ...)], applied to
    [event.payload]. *)
Definition on_chat_message (payload : JsVal) : Handler W unit :=
  assign (push_message payload) ;;;
  scrollToBottom.

(** The [onMounted] hook. *)
Definition mounted : Handler W unit :=
  emit (EListen (lit "chat-message")) ;;;
  (fun c w => (tt, {| refs := refs c; unlisten := true |}, w, [])) ;;;
  emit EAddKeydownListener ;;;
  initP2P.

(** The [onUnmounted] hook. *)
Definition unmounted : Handler W unit :=
  (fun c w => if unlisten c then emit EUnlisten c w else h_ret tt c w) ;;;
  emit ERemoveKeydownListener.

(** A timer firing. *)
Definition run_callback (cb : Callback) : Handler W unit :=
  match cb with
  | CbUpdateNodeInfo => updateNodeInfo
  | CbResetCopied => assign (set_copiedIndex (-1))
  end.

(** Everything that can make the script run: the lifecycle hooks, a
    backend event, a timer, and the handlers bound in the template
    ([v-model] writes and the inline assignments included). *)
Inductive Action :=
  | Mounted
  | Unmounted
  | ChatMessage (payload : JsVal)
  | Timer (cb : Callback)
  | Keydown (ctrlKey : bool) (key : jsstring)
  | Send
  | Join
  | Connect
  | Copy (addr : jsstring) (index : Z)
  | TypeMessage (text : jsstring)
  | TypeRoom (text : jsstring)
  | TypePeerAddress (text : jsstring)
  | DismissJoin
  | CancelJoin
  | DismissConnect
  | CancelConnect.

Definition dispatch (a : Action) : Handler W unit :=
  match a with
  | Mounted => mounted
  | Unmounted => unmounted
  | ChatMessage payload => on_chat_message payload
  | Timer cb => run_callback cb
  | Keydown ctrlKey key => handleKeydown ctrlKey key
  | Send => sendMessage
  | Join => joinRoom
  | Connect => connectToPeer
  | Copy addr index => copyAddress addr index
  | TypeMessage text => assign (set_inputMessage text)
  | TypeRoom text => assign (set_roomInput text)
  | TypePeerAddress text => assign (set_peerAddressInput text)
  | DismissJoin => assign (set_joinRoomMode false)
  | CancelJoin => assign (set_joinRoomMode false) ;;; assign (set_roomInput [])
  | DismissConnect => assign (set_connectPeerMode false)
  | CancelConnect =>
      assign (set_connectPeerMode false) ;;; assign (set_peerAddressInput [])
  end.

(** A run of the component: the actions in order, traces concatenated. *)
Fixpoint run (actions : list Action) : Handler W unit :=
  match actions with
  | [] => h_ret tt
  | a :: rest => dispatch a ;;; run rest
  end.

End Handlers.

(** The pieces of a handler's result. *)
Definition component_of {W A} (r : A * Component * W * list Effect)
  : Component := r.1.1.2.
Definition world_of {W A} (r : A * Component * W * list Effect) : W := r.1.2.
Definition trace_of {W A} (r : A * Component * W * list Effect)
  : list Effect := r.2.

(** The commands a trace invokes, with their arguments. *)
Definition invocations (t : list Effect) : list (jsstring * option JsVal) :=
  omap (fun e => match e with
                 | EInvoke cmd args => Some (cmd, args)
                 | _ => None
                 end) t.

(** The interval timers a trace registers. *)
Definition intervals (t : list Effect) : list (Callback * Z) :=
  omap (fun e => match e with
                 | ESetInterval cb ms => Some (cb, ms)
                 | _ => None
                 end) t.

(** How often a trace invokes the command [cmd]. *)
Definition times_invoked (cmd : jsstring) (t : list Effect) : nat :=
  length (filter (fun i => i.1 = cmd) (invocations t)).

(** The names of the fields of an argument object whose values are all
    strings; no argument at all has no fields. *)
Definition input_shape (args : option JsVal) : option (list jsstring) :=
  match args with
  | None => Some []
  | Some (JObj props) =>
      if forallb (fun kv => match kv.2 with JStr _ => true | _ => false end)
           props
      then Some (props.*1)
      else None
  | Some _ => None
  end.

(** How many times a [setInterval(f, ms)] timer has fired [elapsed]
    milliseconds after it was set, on a clock without drift. *)
Definition firings (ms elapsed : Z) : nat := Z.to_nat (elapsed / ms).

(** [shortPeerID(id)] *)
Definition shortPeerID (id : jsstring) : jsstring :=
  if 16 <? js_length id then
    concat (concat (substring id 0 (Some 8)) (lit "..."))
           (substring id (js_length id - 6) None)
  else id.

End App.

Import App.

(** ** The node behind the commands

    The front end's files contain no node code: everything in this module
    is written from the specification. *)

Module Node.

(** Modelled from the spec: the error taxonomy of section 7 (the node's
    code is missing from the front end). *)
Inductive Error :=
  | TransportBindError
  | InvalidAddressError
  | InvalidRoomNameError
  | EmptyMessageError
  | DialTimeoutError
  | UnreachablePeerError
  | NotJoinedError
  | AlreadyDialingError.

Definition error_name (e : Error) : jsstring :=
  match e with
  | TransportBindError => lit "TransportBindError"
  | InvalidAddressError => lit "InvalidAddressError"
  | InvalidRoomNameError => lit "InvalidRoomNameError"
  | EmptyMessageError => lit "EmptyMessageError"
  | DialTimeoutError => lit "DialTimeoutError"
  | UnreachablePeerError => lit "UnreachablePeerError"
  | NotJoinedError => lit "NotJoinedError"
  | AlreadyDialingError => lit "AlreadyDialingError"
  end.

(** Modelled from the spec: Message of section 3,
    {senderId, content, timestamp, originFlag(local/remote)}. *)
Inductive Origin := Local | Remote.

Record Message := mkMessage {
  senderId : jsstring;
  content : jsstring;
  timestamp : jsstring;
  originFlag : Origin
}.

(** Modelled from the spec: the payload of the [chat-message] event of
    section 6, {from, content, timestamp, is_self}. *)
Definition chat_message (m : Message) : JsVal :=
  JObj [(lit "from", JStr (senderId m));
        (lit "content", JStr (content m));
        (lit "timestamp", JStr (timestamp m));
        (lit "is_self",
         JBool (match originFlag m with Local => true | Remote => false end))].

(** Modelled from the spec: what an operation hands to the consumer and
    to the transport (sections 4.1 to 4.3). *)
Inductive Output :=
  | Emit (payload : JsVal)            (* a chat-message event *)
  | PeerSetChanged                    (* peer-set-changed notification *)
  | NetListen (addrs : list jsstring)
  | NetDial (addr : jsstring)
  | NetSubscribe (room : jsstring)
  | NetUnsubscribe (room : jsstring)
  | NetBroadcast (room : jsstring) (m : Message).

Definition is_network_io (o : Output) : bool :=
  match o with
  | Emit _ | PeerSetChanged => false
  | _ => true
  end.

(** The chat-message payloads among some outputs, in order. *)
Definition chat_events (out : list Output) : list JsVal :=
  omap (fun o => match o with Emit p => Some p | _ => None end) out.

(** Modelled from the spec: how a single dial ends (section 4.2). *)
Inductive DialOutcome := DialConnected | DialTimedOut | DialUnreachable.

(** Modelled from the spec: the key of the dedup window of section 4.3,
    (senderId, timestamp, content-hash). *)
Definition DedupKey : Type := jsstring * jsstring * N.

(** Modelled from the spec: the open design parameters of section 9, the
    content hash and the size of the dedup window. *)
Class Dedup := {
  content_hash : jsstring -> N;
  window : nat
}.

(** Modelled from the spec: the node as one owned service object
    (section 9) holding the identity and listen addresses (4.1), the dial
    attempts and live connections (4.2), the room subscriptions and the
    recent-history set (4.3). *)
Record State := mkNode {
  identity : jsstring;
  listen_addresses : list jsstring;
  dialing : gset jsstring;
  connections : gmap jsstring jsstring;   (* remote identifier to remote address *)
  subscriptions : gset jsstring;
  history : list DedupKey
}.

Definition with_listen (v : list jsstring) (n : State) : State :=
  mkNode (identity n) v (dialing n) (connections n) (subscriptions n)
    (history n).
Definition with_dialing (v : gset jsstring) (n : State) : State :=
  mkNode (identity n) (listen_addresses n) v (connections n)
    (subscriptions n) (history n).
Definition with_connections (v : gmap jsstring jsstring) (n : State) : State :=
  mkNode (identity n) (listen_addresses n) (dialing n) v (subscriptions n)
    (history n).
Definition with_subscriptions (v : gset jsstring) (n : State) : State :=
  mkNode (identity n) (listen_addresses n) (dialing n) (connections n) v
    (history n).
Definition with_history (v : list DedupKey) (n : State) : State :=
  mkNode (identity n) (listen_addresses n) (dialing n) (connections n)
    (subscriptions n) v.

(** A node at process start, before [initialize]. *)
Definition fresh (id : jsstring) : State :=
  mkNode id [] ∅ ∅ ∅ [].

Definition Outcome (A : Type) : Type := (Error + A) * State * list Output.

(** Modelled from the spec: [initialize()] of section 4.1.  [bound] is
    what the transport managed to bind. *)
Definition initialize (bound : list jsstring) (n : State) : Outcome jsstring :=
  match listen_addresses n with
  | _ :: _ => (inr (identity n), n, [])
  | [] =>
      match bound with
      | [] => (inl TransportBindError, n, [])
      | _ :: _ => (inr (identity n), with_listen bound n, [NetListen bound])
      end
  end.

(** Modelled from the spec: [currentAddresses()] and [connectedPeers()]. *)
Definition currentAddresses (n : State) : list jsstring := listen_addresses n.
Definition connectedPeers (n : State) : gset jsstring := dom (connections n).

(** Pieces of an address between [/] separators. *)
Fixpoint split_on (sep : code_unit) (s : jsstring) : list jsstring :=
  match s with
  | [] => [[]]
  | c :: s' =>
      if (c =? sep)%N then [] :: split_on sep s'
      else match split_on sep s' with
           | [] => [[c]]
           | seg :: segs => (c :: seg) :: segs
           end
  end.

(** Modelled from the spec: the address format of section 6, a
    multi-segment string embedding protocol, host/port and a peer
    identifier suffix (e.g. protocol/ip/port/identity).  A leading [/] is
    allowed; the result is the embedded remote identifier. *)
Definition parse_address (addr : jsstring) : option jsstring :=
  let segs := match split_on 47%N addr with
              | [] :: rest => rest
              | segs => segs
              end in
  if (4 <=? length segs)%nat && forallb truthy segs then last segs else None.

(** Modelled from the spec: [connect(address)] of section 4.2, first
    half: local validation, the concurrency guard of section 5, and the
    start of the single dial. *)
Definition start_dial (addr : jsstring) (n : State) : Outcome jsstring :=
  match parse_address addr with
  | None => (inl InvalidAddressError, n, [])
  | Some remote =>
      if decide (addr ∈ dialing n) then (inl AlreadyDialingError, n, [])
      else (inr remote, with_dialing ({[addr]} ∪ dialing n) n, [NetDial addr])
  end.

(** Modelled from the spec: [connect(address)], second half: the dial
    ends. Failure is reported and nothing is retried; success registers
    the connection and notifies. *)
Definition finish_dial (addr remote : jsstring) (result : DialOutcome) (n : State)
  : Outcome unit :=
  let n' := with_dialing (dialing n ∖ {[addr]}) n in
  match result with
  | DialConnected =>
      (inr tt, with_connections (<[remote := addr]> (connections n')) n',
       [PeerSetChanged])
  | DialTimedOut => (inl DialTimeoutError, n', [])
  | DialUnreachable => (inl UnreachablePeerError, n', [])
  end.

(** [connect(address)] from call to report. *)
Definition connect (addr : jsstring) (result : DialOutcome) (n : State) : Outcome unit :=
  match start_dial addr n with
  | (inl e, n1, out1) => (inl e, n1, out1)
  | (inr remote, n1, out1) =>
      let '(r, n2, out2) := finish_dial addr remote result n1 in
      (r, n2, out1 ++ out2)
  end.

(** Modelled from the spec: disconnection (section 4.2). *)
Definition disconnect (remote : jsstring) (n : State) : State * list Output :=
  (with_connections (delete remote (connections n)) n, [PeerSetChanged]).

(** Modelled from the spec: leaving is only ever part of a join
    (section 4.3): the previous subscription is torn down. *)
Definition leave (n : State) : State * list Output :=
  (with_subscriptions ∅ n, NetUnsubscribe <$> elements (subscriptions n)).

(** Modelled from the spec: [join(roomName)] of section 4.3. *)
Definition join (room : jsstring) (n : State) : Outcome unit :=
  match room with
  | [] => (inl InvalidRoomNameError, n, [])
  | _ :: _ =>
      if decide (room ∈ subscriptions n) then (inr tt, n, [])
      else
        let '(n1, out1) := leave n in
        (inr tt, with_subscriptions ({[room]} ∪ subscriptions n1) n1,
         out1 ++ [NetSubscribe room])
  end.

(** Modelled from the spec: [publish(content)] of section 4.3. [now] is
    the clock reading at publish time. *)
Definition publish (text now : jsstring) (n : State) : Outcome unit :=
  match elements (subscriptions n) with
  | [] => (inl NotJoinedError, n, [])
  | rooms =>
      match text with
      | [] => (inl EmptyMessageError, n, [])
      | _ :: _ =>
          let m := mkMessage (identity n) text now Local in
          (inr tt, n, Emit (chat_message m) :: ((fun r => NetBroadcast r m) <$> rooms))
      end
  end.

Section Inbound.
Context `{Dedup}.

Definition dedup_key (m : Message) : DedupKey :=
  (senderId m, timestamp m, content_hash (content m)).

(** Modelled from the spec: the bounded least-recently-seen set of
    section 9, most recently seen first; a key seen again moves to the
    front, and the least recently seen one is dropped when the window is
    full. *)
Definition remember (k : DedupKey) (h : list DedupKey) : list DedupKey :=
  take window (k :: filter (fun k' => k' <> k) h).

(** Modelled from the spec: inbound message handling of section 4.3. *)
Definition receive (room : jsstring) (sender text sent : jsstring) (n : State)
  : State * list Output :=
  let m := mkMessage sender text sent Remote in
  if decide (room ∈ subscriptions n) then
    (with_history (remember (dedup_key m) (history n)) n,
     if decide (dedup_key m ∈ history n) then [] else [Emit (chat_message m)])
  else (n, []).

(** Everything that can happen to a node. *)
Inductive Input :=
  | Initialize (bound : list jsstring)
  | Connect (addr : jsstring) (result : DialOutcome)
  | Disconnect (remote : jsstring)
  | JoinRoom (room : jsstring)
  | Publish (text now : jsstring)
  | Receive (room sender text sent : jsstring).

Definition forget {A} (o : Outcome A) : State * list Output := (o.1.2, o.2).

Definition step (i : Input) (n : State) : State * list Output :=
  match i with
  | Initialize bound => forget (initialize bound n)
  | Connect addr result => forget (connect addr result n)
  | Disconnect remote => disconnect remote n
  | JoinRoom room => forget (join room n)
  | Publish text now => forget (publish text now n)
  | Receive room sender text sent => receive room sender text sent n
  end.

Fixpoint steps (inputs : list Input) (n : State) : State * list Output :=
  match inputs with
  | [] => (n, [])
  | i :: rest =>
      let '(n1, out1) := step i n in
      let '(n2, out2) := steps rest n1 in
      (n2, out1 ++ out2)
  end.

(** Modelled from the spec: the messages section 6 says are announced, a
    local publish that is accepted and a remote message that survives the
    topic check and the dedup window, with the payload each one gets. *)
Definition announced (i : Input) (n : State) : option JsVal :=
  match i with
  | Publish text now =>
      if bool_decide (subscriptions n ≠ ∅) && truthy text
      then Some (chat_message (mkMessage (identity n) text now Local))
      else None
  | Receive room sender text sent =>
      let m := mkMessage sender text sent Remote in
      if bool_decide (room ∈ subscriptions n)
         && negb (bool_decide (dedup_key m ∈ history n))
      then Some (chat_message m)
      else None
  | _ => None
  end.

(** The announcements of a whole sequence of inputs, in arrival order. *)
Fixpoint announcements (inputs : list Input) (n : State) : list JsVal :=
  match inputs with
  | [] => []
  | i :: rest =>
      match announced i n with
      | Some p => p :: announcements rest (step i n).1
      | None => announcements rest (step i n).1
      end
  end.

End Inbound.

(** One choice of the open parameters, for concrete runs: the sum of the
    code units as content hash and a window of eight entries. *)
Definition sample_dedup : Dedup :=
  {| content_hash := fun s => foldr N.add 0%N s; window := 8 |}.

(** States a node can be in: whatever a fresh node reaches. *)
Inductive reachable `{Dedup} (id : jsstring) : State -> Prop :=
  | reach_fresh : reachable id (fresh id)
  | reach_step i n : reachable id n -> reachable id (step i n).1.

(** Modelled from the spec: the command table of section 6, command name
    and the names of its input fields. *)
Definition command_table : list (jsstring * list jsstring) :=
  [(lit "init_p2p", []);
   (lit "get_node_info", []);
   (lit "send_message", [lit "message"]);
   (lit "join_room", [lit "roomName"]);
   (lit "connect_to_peer", [lit "addr"])].

(** Modelled from the spec: the staleness bound recommended in section
    4.2 for [connectedPeers()], in seconds. *)
Definition recommended_poll_seconds : Z := 5.

(** How a result crosses the command boundary. *)
Definition settle {A} (encode : A -> JsVal) (r : Error + A) : Settled :=
  match r with
  | inl e => Reject (JStr (error_name e))
  | inr a => Resolve (encode a)
  end.

(** What the transport and the clock answer while a command runs. *)
Record Env := mkEnv {
  env_bound : list jsstring;
  env_dial : jsstring -> DialOutcome;
  env_now : jsstring
}.

(** Modelled from the spec: the Event Bridge / Command API of section
    4.4, a thin adapter from the five commands of section 6 to the
    engine.  A call outside the table, or without its input field as a
    string, gets no answer from the contract ([None]). *)
Definition command (env : Env) (cmd : jsstring) (args : option JsVal) (n : State)
  : option (Settled * State * list Output) :=
  let field k := match args with
                 | Some (JObj props) =>
                     match lookup_prop k props with JStr s => Some s | _ => None end
                 | _ => None
                 end in
  if decide (cmd = lit "init_p2p") then
    let '(r, n', out) := initialize (env_bound env) n in
    Some (settle JStr r, n', out)
  else if decide (cmd = lit "get_node_info") then
    Some (Resolve (JObj [(lit "addresses", JArr (JStr <$> currentAddresses n));
                         (lit "connected_peers",
                          JArr (JStr <$> elements (connectedPeers n)))]),
          n, [])
  else if decide (cmd = lit "send_message") then
    text ← field (lit "message");
    let '(r, n', out) := publish text (env_now env) n in
    Some (settle (fun _ => JNull) r, n', out)
  else if decide (cmd = lit "join_room") then
    room ← field (lit "roomName");
    let '(r, n', out) := join room n in
    Some (settle (fun _ => JNull) r, n', out)
  else if decide (cmd = lit "connect_to_peer") then
    addr ← field (lit "addr");
    let '(r, n', out) := connect addr (env_dial env addr) n in
    Some (settle (fun _ => JNull) r, n', out)
  else None.

End Node.

(** ** The component without a backend *)

Module Offline.

(** A window opened outside the native shell: there is no backend, every
    [invoke] rejects, and the clock is stopped at the given reading. *)
Record World := mkWorld {
  clock : jsstring;
  calls : nat
}.

#[global] Instance offline_runtime : Runtime World := {
  rt_invoke cmd args w :=
    (Reject (JStr (lit "backend unavailable")), mkWorld (clock w) (S (calls w)));
  rt_now_iso w := clock w;
  rt_clipboard_write text w := (Resolve JUndefined, w)
}.

End Offline.

(** ** The component on top of the node *)

Module Wired.

(** The world the component runs in when the backend is the node above:
    the node, its environment, and the outputs it has produced so far. *)
Record World := mkWorld {
  node : Node.State;
  env : Node.Env;
  outbox : list Node.Output
}.

(** [invoke] runs the command on the node. A call outside the contract
    is rejected without touching the node. *)
#[global] Instance node_runtime : Runtime World := {
  rt_invoke cmd args w :=
    match Node.command (env w) cmd args (node w) with
    | Some (r, n', out) => (r, mkWorld n' (env w) (outbox w ++ out))
    | None => (Reject (JStr (lit "invalid args")), w)
    end;
  rt_now_iso w := Node.env_now (env w);
  rt_clipboard_write text w := (Resolve JUndefined, w)
}.

(** The listener receives every chat-message event, in the order the
    node emitted them. *)
Definition deliver (payloads : list JsVal) : Handler World unit :=
  run (ChatMessage <$> payloads).

End Wired.


(** ** The component on a scripted backend *)

Module Scripted.

(** A backend that answers from a script: each [invoke] and each
    clipboard write takes the next reply, and rejects once the script is
    used up. *)
Record World := mkWorld {
  replies : list Settled;
  clock : jsstring
}.

Definition next (w : World) : Settled * World :=
  match replies w with
  | r :: rest => (r, mkWorld rest (clock w))
  | [] => (Reject (JStr (lit "no reply")), w)
  end.

#[global] Instance scripted_runtime : Runtime World := {
  rt_invoke cmd args w := next w;
  rt_now_iso w := clock w;
  rt_clipboard_write text w := next w
}.

(** A script with the given replies, at a fixed clock reading. *)
Definition script (rs : list Settled) : World :=
  mkWorld rs (lit "2025-01-01T00:00:00.000Z").

End Scripted.

(** ** What the template computes from the state *)

Module View.

(** ToBoolean, as [?:] applies it to its condition. *)
Definition to_boolean (v : JsVal) : bool :=
  match v with
  | JUndefined | JNull => false
  | JBool b => b
  | JStr s => truthy s
  | JArr _ | JObj _ => true
  end.

(** [v === 'literal'] against a string literal. *)
Definition is_string (v : JsVal) (s : jsstring) : bool :=
  match v with
  | JStr t => bool_decide (t = s)
  | _ => false
  end.

(** The class a message row gets besides ['message']:
    [msg.is_self ? 'self' : msg.from === 'System' ? 'system' : 'peer'].
    [None] when the read of [msg.is_self] throws. *)
Definition message_class (msg : JsVal) : option jsstring :=
  match get_prop msg (lit "is_self") with
  | None => None
  | Some is_self =>
      if to_boolean is_self then Some (lit "self")
      else
        match get_prop msg (lit "from") with
        | None => None
        | Some from =>
            Some (if is_string from (lit "System") then lit "system"
                  else lit "peer")
        end
  end.

(** [:disabled] of the Send button, [!isInitialized || !inputMessage.trim()]. *)
Definition send_disabled (s : State) : bool :=
  negb (isInitialized s) || negb (truthy (trim (inputMessage s))).

(** [:disabled] of the message box, [!isInitialized]. *)
Definition input_disabled (s : State) : bool := negb (isInitialized s).

(** The label of the copy button of row [index],
    [copiedIndex === index ? '✓ Copied' : 'Copy']. *)
Definition copy_label (s : State) (index : Z) : jsstring :=
  if copiedIndex s =? index then 0x2713%N :: lit " Copied" else lit "Copy".

End View.


(** How many times a trace calls [scrollToBottom]. *)
Definition scrolls (t : list Effect) : nat :=
  length (omap (fun e => match e with
                         | EScrollToBottom => Some tt
                         | _ => None
                         end) t).

(** ** Concrete runs *)

Module Samples.

(** A node called ["12D3KooWAlice"] that can bind one address, on a
    network where every dial times out. *)
Definition alice : Node.State := Node.fresh (lit "12D3KooWAlice").

Definition quiet_env : Node.Env :=
  Node.mkEnv [lit "/ip4/127.0.0.1/tcp/4001/p2p/12D3KooWAlice"]
    (fun _ => Node.DialTimedOut) (lit "2025-01-01T00:00:00.000Z").

Definition alice_world : Wired.World := Wired.mkWorld alice quiet_env [].

(** [alice] after joining ["room1"]. *)
Definition alice_in_room1 : Node.State := (Node.join (lit "room1") alice).1.2.

(** The component right after [setup], and with text typed into the
    three inputs. *)
Definition at_setup : Component := mkComponent initial false.

Definition typed : Component :=
  mkComponent
    (set_peerAddressInput (lit "/ip4/10.0.0.7/tcp/4001/p2p/12D3KooWBob")
       (set_roomInput (lit "room1") (set_inputMessage (lit "hello") initial)))
    false.

(** A message box holding a space, a tab, a line feed and a no-break
    space. *)
Definition blank : Component :=
  mkComponent (set_inputMessage [32%N; 9%N; 10%N; 160%N] initial) false.

Definition stopped_clock : Offline.World :=
  Offline.mkWorld (lit "2025-01-01T00:00:00.000Z") 0.

End Samples.

(** Evaluate a handler: open the monad and split on whatever the world
    answers and on every test of the source. *)
Ltac run_handler :=
  unfold dispatch, mounted, unmounted, run_callback, on_chat_message,
    copyAddress, handleKeydown, connectToPeer, joinRoom, sendMessage, initP2P,
    updateNodeInfo, updateNodeInfo_settled, addSystemMessage, scrollToBottom,
    console_error, clipboard_write, now_iso, invoke, assign, read, emit,
    h_bind, h_ret, trace_of, component_of, world_of;
  repeat first
    [ progress simpl
    | match goal with
      | |- context [rt_invoke ?a ?b ?x] =>
          let r := fresh "r" in let w := fresh "w" in
          destruct (rt_invoke a b x) as [r w] eqn:?; destruct r
      | |- context [rt_clipboard_write ?a ?x] =>
          let r := fresh "r" in let w := fresh "w" in
          destruct (rt_clipboard_write a x) as [r w] eqn:?; destruct r
      | |- context [get_prop ?a ?b] => destruct (get_prop a b) eqn:?
      | |- context [truthy ?a] => destruct (truthy a) eqn:?
      | |- context [if ?b then _ else _] => destruct b eqn:?
      end ].

(** Walk down the chain of name tests of [Node.command]. *)
Ltac pick_command :=
  repeat match goal with
    | |- context [decide (?a = ?b)] =>
        let Heq := fresh "Heq" in
        destruct (decide (a = b)) as [Heq | Heq];
        [ try (exfalso; vm_compute in Heq; discriminate Heq)
        | try (exfalso; apply Heq; reflexivity) ]
    end.

(** Telling two command names apart. *)
Ltac other_command H :=
  exfalso;
  repeat (apply elem_of_cons in H as [H | H];
          [vm_compute in H; discriminate H |]);
  by apply elem_of_nil in H.

(** * Theorems *)

(** ** The source's string functions *)

Example trim_strips_both_ends :
  trim (9%N :: lit "  hi there " ++ [10%N; 0x2028%N]) = lit "hi there".
Proof. reflexivity. Qed.

Example trim_of_blank : trim [32%N; 9%N; 10%N; 160%N] = [].
Proof. reflexivity. Qed.

Example substring_swaps_and_clamps :
  substring (lit "abcdef") 4 (Some 1) = lit "bcd"
  /\ substring (lit "abcdef") (-3) (Some 2) = lit "ab"
  /\ substring (lit "abcdef") 4 None = lit "ef"
  /\ substring (lit "abcdef") 9 None = [].
Proof. repeat split. Qed.

Example to_string_of_values :
  to_string (JStr (lit "NotJoinedError")) = lit "NotJoinedError"
  /\ to_string (JArr [JStr (lit "a"); JNull; JBool true]) = lit "a,,true"
  /\ to_string (JObj [(lit "code", JStr (lit "x"))]) = lit "[object Object]".
Proof. repeat split. Qed.

Example shortPeerID_short : shortPeerID (lit "0123456789abcdef") = lit "0123456789abcdef".
Proof. reflexivity. Qed.

Example shortPeerID_long :
  shortPeerID (lit "12D3KooWQk5s8mNpTZ9xY4vLhR2eB7") = lit "12D3KooW...hR2eB7".
Proof. reflexivity. Qed.

Lemma substring_prefix (s : jsstring) (n : Z) :
  0 <= n <= js_length s ->
  substring s 0 (Some n) = take (Z.to_nat n) s.
Proof.
  intros Hn. unfold substring, clamp. simpl.
  rewrite (Z.max_l 0 0) by lia. rewrite (Z.min_l 0 (js_length s)) by lia.
  rewrite (Z.max_l n 0) by lia. rewrite (Z.min_l n (js_length s)) by lia.
  rewrite Z.min_l by lia. rewrite Z.max_r by lia.
  replace (n - 0) with n by lia. reflexivity.
Qed.

Lemma substring_suffix (s : jsstring) (n : Z) :
  0 <= n <= js_length s ->
  substring s n None = drop (Z.to_nat n) s.
Proof.
  intros Hn. unfold substring, clamp. simpl.
  rewrite (Z.max_l n 0) by lia. rewrite (Z.min_l n (js_length s)) by lia.
  rewrite (Z.max_l (js_length s) 0) by (unfold js_length; lia).
  rewrite (Z.min_l (js_length s) (js_length s)) by lia.
  rewrite Z.min_l by lia. rewrite Z.max_r by lia.
  apply take_ge. rewrite length_drop. unfold js_length in *. lia.
Qed.

(** C10. For every string [id], [shortPeerID id] is [id] itself when its
    length is at most 16; otherwise it is the 17-unit string made of the
    first 8 units of [id], the literal ["..."], and the last 6 units. *)
Theorem shortPeerID_spec (id : jsstring) :
  (js_length id <= 16 -> shortPeerID id = id) /\
  (16 < js_length id ->
     shortPeerID id = take 8 id ++ lit "..." ++ drop (length id - 6) id
     /\ js_length (shortPeerID id) = 17
     /\ take 8 (shortPeerID id) = take 8 id
     /\ drop 11 (shortPeerID id) = drop (length id - 6) id
     /\ length (drop (length id - 6) id) = 6%nat).
Proof.
  unfold shortPeerID. split; intros Hlen.
  - destruct (Z.ltb_spec 16 (js_length id)); [lia | reflexivity].
  - destruct (Z.ltb_spec 16 (js_length id)); [| lia].
    assert (Hl : (16 < length id)%nat) by (unfold js_length in *; lia).
    rewrite substring_prefix by lia.
    rewrite substring_suffix by lia.
    replace (Z.to_nat (js_length id - 6)) with (length id - 6)%nat
      by (unfold js_length; lia).
    replace (Z.to_nat 8) with 8%nat by reflexivity.
    unfold concat. rewrite <- app_assoc.
    assert (H8 : length (take 8 id) = 8%nat) by (rewrite length_take; lia).
    assert (H6 : length (drop (length id - 6) id) = 6%nat)
      by (rewrite length_drop; lia).
    repeat split.
    + unfold js_length. rewrite !length_app, H8, H6. reflexivity.
    + rewrite take_app_length'; [reflexivity | by rewrite H8].
    + rewrite app_assoc. apply drop_app_length'.
      rewrite length_app, H8. reflexivity.
    + exact H6.
Qed.

Lemma trim_start_nil_iff (s : jsstring) :
  trim_start s = [] <-> forallb is_trimmed s = true.
Proof.
  induction s as [| c s IH]; simpl; [tauto |].
  destruct (is_trimmed c); simpl; [exact IH |].
  split; discriminate.
Qed.

Lemma trim_start_head (s : jsstring) (c : code_unit) (s' : jsstring) :
  trim_start s = c :: s' -> is_trimmed c = false.
Proof.
  induction s as [| d s IH]; simpl; [discriminate |].
  destruct (is_trimmed d) eqn:Hd; [exact IH |].
  intros [= <- _]. exact Hd.
Qed.

Lemma forallb_rev_trimmed (s : jsstring) :
  forallb is_trimmed (rev s) = forallb is_trimmed s.
Proof.
  induction s as [| c s IH]; simpl; [reflexivity |].
  rewrite forallb_app, IH. simpl. rewrite andb_true_r. apply andb_comm.
Qed.

(** [s.trim()] is empty exactly when [s] consists of white space and line
    terminators only (the empty string included). *)
Lemma trim_nil_iff (s : jsstring) :
  trim s = [] <-> forallb is_trimmed s = true.
Proof.
  unfold trim, trim_end. split.
  - intros Hnil.
    destruct (trim_start s) as [| c s'] eqn:Hs.
    + by apply trim_start_nil_iff.
    + apply trim_start_head in Hs as Hc.
      assert (Hr : trim_start (rev (c :: s')) = []).
      { rewrite <- (rev_involutive (trim_start _)), Hnil. reflexivity. }
      apply trim_start_nil_iff in Hr. rewrite forallb_rev_trimmed in Hr.
      simpl in Hr. rewrite Hc in Hr. discriminate.
  - intros Hall. apply trim_start_nil_iff in Hall. rewrite Hall. reflexivity.
Qed.

(** A string the handlers let through has a unit that is neither white
    space nor a line terminator; in particular it is not empty. *)
Lemma passes_trim_test (s : jsstring) :
  truthy (trim s) = true ->
  forallb is_trimmed s = false /\ s <> [] /\ exists c, c ∈ s /\ is_trimmed c = false.
Proof.
  intros Ht.
  assert (Hf : forallb is_trimmed s = false).
  { destruct (forallb is_trimmed s) eqn:Hall; [| reflexivity].
    apply trim_nil_iff in Hall. rewrite Hall in Ht. discriminate. }
  split; [exact Hf |]. split.
  - intros ->. discriminate.
  - clear Ht. induction s as [| c s IH]; simpl in Hf; [discriminate |].
    destruct (is_trimmed c) eqn:Hc.
    + destruct (IH Hf) as (d & Hd & Hnd). exists d. split; [by right | exact Hnd].
    + exists c. split; [by left | exact Hc].
Qed.

Lemma blank_fails_trim_test (s : jsstring) :
  forallb is_trimmed s = true -> truthy (trim s) = false.
Proof. intros Hall. apply trim_nil_iff in Hall. rewrite Hall. reflexivity. Qed.

(** ** The handlers of the component *)

Section HandlerFacts.
Context {W : Type} `{RT : Runtime W}.

Lemma addSystemMessage_run (text : jsstring) (c : Component) (w : W) :
  addSystemMessage text c w =
    (tt,
     mkComponent
       (push_message
          (JObj [(lit "from", JStr (lit "System")); (lit "content", JStr text);
                 (lit "timestamp", JStr (rt_now_iso w)); (lit "is_self", JBool false)])
          (refs c))
       (unlisten c),
     w, [EScrollToBottom]).
Proof. reflexivity. Qed.

Lemma push_message_only_messages (m : JsVal) (s : State) :
  messages (push_message m s) = messages s ++ [m]
  /\ inputMessage (push_message m s) = inputMessage s
  /\ peerID (push_message m s) = peerID s
  /\ addresses (push_message m s) = addresses s
  /\ connectedPeers (push_message m s) = connectedPeers s
  /\ isInitialized (push_message m s) = isInitialized s
  /\ joinRoomMode (push_message m s) = joinRoomMode s
  /\ connectPeerMode (push_message m s) = connectPeerMode s
  /\ roomInput (push_message m s) = roomInput s
  /\ peerAddressInput (push_message m s) = peerAddressInput s
  /\ currentRoom (push_message m s) = currentRoom s
  /\ copiedIndex (push_message m s) = copiedIndex s.
Proof. repeat split. Qed.

(** C9. When the awaited [send_message] call rejects, [sendMessage]
    leaves [inputMessage] as it was, and when [join_room] rejects,
    [joinRoom] leaves [currentRoom], [joinRoomMode] and [roomInput] as
    they were: in each case (and likewise for [connectToPeer]) the
    component afterwards is the component before with one message pushed,
    whose [from] is ['System'] and whose [is_self] is [false].
    [inputMessage] is cleared when the call resolves. *)
Theorem handlers_atomic_on_failure (c : Component) (w : W) :
  (forall e w',
      truthy (trim (inputMessage (refs c))) = true ->
      rt_invoke (lit "send_message")
        (Some (JObj [(lit "message", JStr (inputMessage (refs c)))])) w
      = (Reject e, w') ->
      let c' := component_of (sendMessage c w) in
      c' = mkComponent
             (push_message
                (JObj [(lit "from", JStr (lit "System"));
                       (lit "content",
                        JStr (concat (0x26A0%N :: lit " Failed to send message: ")
                                     (to_string e)));
                       (lit "timestamp", JStr (rt_now_iso w'));
                       (lit "is_self", JBool false)])
                (refs c))
             (unlisten c)
      /\ inputMessage (refs c') = inputMessage (refs c)
      /\ length (messages (refs c')) = S (length (messages (refs c))))
  /\ (forall e w',
      truthy (trim (roomInput (refs c))) = true ->
      rt_invoke (lit "join_room")
        (Some (JObj [(lit "roomName", JStr (roomInput (refs c)))])) w
      = (Reject e, w') ->
      let c' := component_of (joinRoom c w) in
      c' = mkComponent
             (push_message
                (JObj [(lit "from", JStr (lit "System"));
                       (lit "content",
                        JStr (concat (0x26A0%N :: lit " Failed to join room: ")
                                     (to_string e)));
                       (lit "timestamp", JStr (rt_now_iso w'));
                       (lit "is_self", JBool false)])
                (refs c))
             (unlisten c)
      /\ currentRoom (refs c') = currentRoom (refs c)
      /\ joinRoomMode (refs c') = joinRoomMode (refs c)
      /\ roomInput (refs c') = roomInput (refs c)
      /\ length (messages (refs c')) = S (length (messages (refs c))))
  /\ (forall e w',
      truthy (trim (peerAddressInput (refs c))) = true ->
      rt_invoke (lit "connect_to_peer")
        (Some (JObj [(lit "addr", JStr (peerAddressInput (refs c)))])) w
      = (Reject e, w') ->
      let c' := component_of (connectToPeer c w) in
      c' = mkComponent
             (push_message
                (JObj [(lit "from", JStr (lit "System"));
                       (lit "content",
                        JStr (concat (0x26A0%N :: lit " Failed to connect to peer: ")
                                     (to_string e)));
                       (lit "timestamp", JStr (rt_now_iso w'));
                       (lit "is_self", JBool false)])
                (refs c))
             (unlisten c)
      /\ connectPeerMode (refs c') = connectPeerMode (refs c)
      /\ peerAddressInput (refs c') = peerAddressInput (refs c))
  /\ (forall v w',
      truthy (trim (inputMessage (refs c))) = true ->
      rt_invoke (lit "send_message")
        (Some (JObj [(lit "message", JStr (inputMessage (refs c)))])) w
      = (Resolve v, w') ->
      component_of (sendMessage c w)
      = mkComponent (set_inputMessage [] (refs c)) (unlisten c)).
Proof.
  split; [| split; [| split]].
  - intros e w' Hin Hrej. unfold sendMessage, h_bind, read, invoke.
    rewrite Hin. simpl. rewrite Hrej. simpl.
    split; [reflexivity |].
    split; [reflexivity |]. rewrite length_app. simpl. lia.
  - intros e w' Hin Hrej. unfold joinRoom, h_bind, read, invoke.
    rewrite Hin. simpl. rewrite Hrej. simpl.
    split; [reflexivity |].
    repeat (split; [reflexivity |]). rewrite length_app. simpl. lia.
  - intros e w' Hin Hrej. unfold connectToPeer, h_bind, read, invoke.
    rewrite Hin. simpl. rewrite Hrej. simpl. done.
  - intros v w' Hin Hres. unfold sendMessage, h_bind, read, invoke.
    rewrite Hin. simpl. rewrite Hres. reflexivity.
Qed.

(** The calls to [invoke] that one action makes. *)
Lemma dispatch_invocations (a : Action) (c : Component) (w : W) :
  let inv := invocations (trace_of (dispatch a c w)) in
  inv = []
  \/ inv = [(lit "init_p2p", None)]
  \/ inv = [(lit "init_p2p", None); (lit "get_node_info", None)]
  \/ inv = [(lit "get_node_info", None)]
  \/ (inv = [(lit "send_message",
              Some (JObj [(lit "message", JStr (inputMessage (refs c)))]))]
      /\ truthy (trim (inputMessage (refs c))) = true)
  \/ (inv = [(lit "join_room",
              Some (JObj [(lit "roomName", JStr (roomInput (refs c)))]))]
      /\ truthy (trim (roomInput (refs c))) = true)
  \/ (inv = [(lit "connect_to_peer",
              Some (JObj [(lit "addr", JStr (peerAddressInput (refs c)))]))]
      /\ truthy (trim (peerAddressInput (refs c))) = true).
Proof.
  destruct a; run_handler; tauto.
Qed.

(** The listener pushes what it is given, one payload after the other,
    and touches nothing else. *)
Lemma listener_appends (payloads : list JsVal) (c : Component) (w : W) :
  run (ChatMessage <$> payloads) c w =
    (tt,
     mkComponent (set_messages (messages (refs c) ++ payloads) (refs c)) (unlisten c),
     w, replicate (length payloads) EScrollToBottom).
Proof.
  revert c. induction payloads as [| p payloads IH]; intros c.
  - destruct c as [[] u]. simpl. unfold h_ret, set_messages. simpl.
    by rewrite app_nil_r.
  - change (run (ChatMessage <$> p :: payloads))
      with (h_bind (on_chat_message p) (fun _ => run (ChatMessage <$> payloads))).
    unfold h_bind at 1.
    change (on_chat_message p c w)
      with (tt, mkComponent (push_message p (refs c)) (unlisten c), w, [EScrollToBottom]).
    cbv beta iota zeta. rewrite IH.
    unfold set_messages, push_message, set_messages. simpl.
    by rewrite <- app_assoc.
Qed.

Lemma trace_of_bind {A B} (m : Handler W A) (k : A -> Handler W B)
    (c : Component) (w : W) :
  trace_of (h_bind m k c w) =
    trace_of (m c w)
      ++ trace_of (k (m c w).1.1.1 (component_of (m c w)) (world_of (m c w))).
Proof.
  unfold h_bind, trace_of, component_of, world_of.
  destruct (m c w) as [[[a c1] w1] t1]. simpl.
  by destruct (k a c1 w1) as [[[b c2] w2] t2].
Qed.

Lemma invocations_app (t1 t2 : list Effect) :
  invocations (t1 ++ t2) = invocations t1 ++ invocations t2.
Proof. apply omap_app. Qed.

Lemma times_invoked_app (cmd : jsstring) (t1 t2 : list Effect) :
  times_invoked cmd (t1 ++ t2) = (times_invoked cmd t1 + times_invoked cmd t2)%nat.
Proof.
  unfold times_invoked. by rewrite invocations_app, filter_app, length_app.
Qed.

(** The rejections an action logs are rejections the world answered
    with, to one of the calls the action makes. *)
Lemma dispatch_rejections (a : Action) (c : Component) (w : W)
    (label : jsstring) (err : JsVal) :
  EConsoleError label (Rejected err) ∈ trace_of (dispatch a c w) ->
  (exists text w0 w', rt_clipboard_write text w0 = (Reject err, w'))
  \/ (exists w0 w', rt_invoke (lit "init_p2p") None w0 = (Reject err, w'))
  \/ (exists w0 w', rt_invoke (lit "get_node_info") None w0 = (Reject err, w'))
  \/ (exists w0 w',
        rt_invoke (lit "send_message")
          (Some (JObj [(lit "message", JStr (inputMessage (refs c)))])) w0
        = (Reject err, w')
        /\ truthy (trim (inputMessage (refs c))) = true)
  \/ (exists w0 w',
        rt_invoke (lit "join_room")
          (Some (JObj [(lit "roomName", JStr (roomInput (refs c)))])) w0
        = (Reject err, w')
        /\ truthy (trim (roomInput (refs c))) = true)
  \/ (exists w0 w',
        rt_invoke (lit "connect_to_peer")
          (Some (JObj [(lit "addr", JStr (peerAddressInput (refs c)))])) w0
        = (Reject err, w')
        /\ truthy (trim (peerAddressInput (refs c))) = true).
Proof.
  destruct a; run_handler; intros Hin;
    repeat (apply elem_of_cons in Hin as [Hin | Hin];
            [try discriminate Hin; simplify_eq; eauto 12 |]);
    by apply elem_of_nil in Hin.
Qed.

(** [updateNodeInfo] asks once and sets no timer. *)
Lemma updateNodeInfo_trace (c : Component) (w : W) :
  invocations (trace_of (updateNodeInfo c w)) = [(lit "get_node_info", None)]
  /\ intervals (trace_of (updateNodeInfo c w)) = [].
Proof. run_handler; done. Qed.

Lemma timer_firings_trace (k : nat) (c : Component) (w : W) :
  times_invoked (lit "get_node_info")
    (trace_of (run (replicate k (Timer CbUpdateNodeInfo)) c w)) = k.
Proof.
  revert c w. induction k as [| k IH]; intros c w; [reflexivity |].
  change (run (replicate (S k) (Timer CbUpdateNodeInfo)))
    with (h_bind updateNodeInfo
            (fun _ => run (replicate k (Timer CbUpdateNodeInfo)))).
  rewrite trace_of_bind, times_invoked_app, IH.
  unfold times_invoked.
  by rewrite (proj1 (updateNodeInfo_trace c w)).
Qed.

(** The only interval timer any action sets is the one of [initP2P]. *)
Lemma dispatch_intervals (a : Action) (c : Component) (w : W) :
  intervals (trace_of (dispatch a c w)) = []
  \/ intervals (trace_of (dispatch a c w)) = [(CbUpdateNodeInfo, 5000)].
Proof. destruct a; run_handler; tauto. Qed.

Lemma initP2P_resolved (c : Component) (w w1 : W) (id : JsVal) :
  rt_invoke (lit "init_p2p") None w = (Resolve id, w1) ->
  exists rest,
    trace_of (initP2P c w) =
      [EInvoke (lit "init_p2p") None; EInvoke (lit "get_node_info") None;
       ESetInterval CbUpdateNodeInfo 5000] ++ rest
    /\ invocations rest = [] /\ intervals rest = [].
Proof.
  intros Hok. unfold initP2P, h_bind at 1, invoke at 1. rewrite Hok.
  run_handler; eexists; (split; [reflexivity | done]).
Qed.

Lemma initP2P_rejected (c : Component) (w w1 : W) (err : JsVal) :
  rt_invoke (lit "init_p2p") None w = (Reject err, w1) ->
  invocations (trace_of (initP2P c w)) = [(lit "init_p2p", None)]
  /\ intervals (trace_of (initP2P c w)) = []
  /\ isInitialized (refs (component_of (initP2P c w))) = isInitialized (refs c).
Proof.
  intros Hno. unfold initP2P, h_bind at 1, invoke at 1. rewrite Hno.
  run_handler; done.
Qed.

Lemma initP2P_invokes (c : Component) (w : W) :
  (lit "init_p2p", None) ∈ invocations (trace_of (initP2P c w)).
Proof. run_handler; by left. Qed.

Lemma mounted_trace (c : Component) (w : W) :
  trace_of (mounted c w) =
    [EListen (lit "chat-message"); EAddKeydownListener]
      ++ trace_of (initP2P (mkComponent (refs c) true) w).
Proof.
  unfold mounted, h_bind, emit, trace_of.
  by destruct (initP2P _ w) as [[[u c1] w1] t1].
Qed.

End HandlerFacts.

(** ** The node of the specification *)

Section NodeFacts.
Context `{D : Node.Dedup}.
Import Node.

Lemma elements_nil_iff (X : gset jsstring) : elements X = [] <-> X = ∅.
Proof.
  split.
  - intros Hnil. apply leibniz_equiv. by apply elements_empty_iff.
  - intros ->. apply elements_empty.
Qed.

(** [publish] by cases, in the order it checks. *)
Lemma publish_not_joined (text now : jsstring) (n : State) :
  subscriptions n = ∅ -> publish text now n = (inl NotJoinedError, n, []).
Proof. intros Hsub. unfold publish. rewrite Hsub, elements_empty. reflexivity. Qed.

Lemma publish_empty (now : jsstring) (n : State) :
  subscriptions n <> ∅ -> publish [] now n = (inl EmptyMessageError, n, []).
Proof.
  intros Hsub. unfold publish.
  destruct (elements (subscriptions n)) eqn:Hel; [| reflexivity].
  by apply elements_nil_iff in Hel.
Qed.

Lemma publish_accepted (c : code_unit) (text now : jsstring) (n : State) :
  subscriptions n <> ∅ ->
  publish (c :: text) now n =
    (inr tt, n,
     Emit (chat_message (mkMessage (identity n) (c :: text) now Local))
       :: ((fun r => NetBroadcast r (mkMessage (identity n) (c :: text) now Local))
             <$> elements (subscriptions n))).
Proof.
  intros Hsub. unfold publish.
  destruct (elements (subscriptions n)) eqn:Hel; [| reflexivity].
  by apply elements_nil_iff in Hel.
Qed.

(** A failed operation of the node changes nothing and sends nothing,
    except that a dial that fails has been on the wire. *)
Lemma publish_failure (text now : jsstring) (n : State) (e : Error) :
  (publish text now n).1.1 = inl e -> publish text now n = (inl e, n, []).
Proof.
  unfold publish. destruct (elements (subscriptions n)); simpl.
  - by intros [= <-].
  - destruct text; simpl; [by intros [= <-] | discriminate].
Qed.

Lemma publish_errors (text now : jsstring) (n : State) (e : Error) :
  (publish text now n).1.1 = inl e -> e = NotJoinedError \/ e = EmptyMessageError.
Proof.
  unfold publish. destruct (elements (subscriptions n)); simpl.
  - intros [= <-]. by left.
  - destruct text; simpl; [intros [= <-]; by right | discriminate].
Qed.

Lemma join_failure (room : jsstring) (n : State) (e : Error) :
  (join room n).1.1 = inl e ->
  join room n = (inl e, n, []) /\ e = InvalidRoomNameError /\ room = [].
Proof.
  unfold join. destruct room; simpl; [by intros [= <-] |].
  destruct (decide _); simpl; discriminate.
Qed.

Lemma join_nonempty (c : code_unit) (room : jsstring) (n : State) :
  (join (c :: room) n).1.1 = inr tt
  /\ (c :: room) ∈ subscriptions (join (c :: room) n).1.2.
Proof.
  unfold join. destruct (decide _) as [Hin | Hout]; simpl; [done |].
  split; [done | set_solver].
Qed.

Lemma join_fresh_room (room : jsstring) (n : State) :
  room <> [] -> room ∉ subscriptions n ->
  join room n =
    (inr tt, with_subscriptions {[room]} n,
     (NetUnsubscribe <$> elements (subscriptions n)) ++ [NetSubscribe room]).
Proof.
  intros Hne Hout. unfold join. destruct room; [done |].
  destruct (decide _); [done |]. simpl.
  rewrite (right_id_L ∅ (∪)). reflexivity.
Qed.

Lemma join_same_room (room : jsstring) (n : State) :
  room <> [] -> room ∈ subscriptions n -> join room n = (inr tt, n, []).
Proof.
  intros Hne Hin. unfold join. destruct room; [done |].
  destruct (decide _); done.
Qed.

Lemma join_or_other (i : Input) :
  (exists room, i = JoinRoom room) \/ (forall room, i <> JoinRoom room).
Proof. destruct i; try (right; discriminate). left. by eexists. Qed.

(** Only [join] touches the subscriptions. *)
Lemma step_subscriptions (i : Input) (n : State) :
  (forall room, i <> JoinRoom room) ->
  subscriptions (step i n).1 = subscriptions n.
Proof.
  intros Hnot. destruct i; simpl.
  - unfold initialize. destruct (listen_addresses n); [destruct bound |]; reflexivity.
  - unfold connect, start_dial. destruct (parse_address addr); [| reflexivity].
    destruct (decide _); [reflexivity |]. destruct result; reflexivity.
  - reflexivity.
  - by destruct (Hnot room).
  - unfold publish. destruct (elements _); [reflexivity |].
    destruct text; reflexivity.
  - unfold receive. by destruct (decide _).
Qed.

Lemma steps_app (xs ys : list Input) (n : State) :
  steps (xs ++ ys) n =
    ((steps ys (steps xs n).1).1, (steps xs n).2 ++ (steps ys (steps xs n).1).2).
Proof.
  revert n. induction xs as [| i xs IH]; intros n; simpl.
  - by destruct (steps ys n).
  - destruct (step i n) as [n1 out1]. rewrite IH.
    destruct (steps xs n1) as [n2 out2]. simpl.
    destruct (steps ys n2) as [n3 out3]. simpl. by rewrite app_assoc.
Qed.

Lemma steps_subscriptions (inputs : list Input) (n : State) :
  (forall room, JoinRoom room ∉ inputs) ->
  subscriptions (steps inputs n).1 = subscriptions n.
Proof.
  revert n. induction inputs as [| i inputs IH]; intros n Hnot; simpl; [reflexivity |].
  destruct (step i n) as [n1 out1] eqn:Hstep.
  specialize (IH n1). destruct (steps inputs n1) as [n2 out2]. simpl in *.
  rewrite IH.
  - replace n1 with (step i n).1 by (by rewrite Hstep).
    apply step_subscriptions. intros room ->. apply (Hnot room). by left.
  - intros room Hin. apply (Hnot room). by right.
Qed.

(** A room that is not subscribed stays so until it is joined. *)
Lemma steps_not_subscribed (room : jsstring) (inputs : list Input) (n : State) :
  room ∉ subscriptions n -> JoinRoom room ∉ inputs ->
  room ∉ subscriptions (steps inputs n).1.
Proof.
  revert n. induction inputs as [| i inputs IH]; intros n Hout Hnot; simpl; [done |].
  destruct (step i n) as [n1 out1] eqn:Hstep.
  specialize (IH n1). destruct (steps inputs n1) as [n2 out2]. simpl in *.
  apply IH; [| intros Hin; apply Hnot; by right].
  replace n1 with (step i n).1 by (by rewrite Hstep).
  destruct (join_or_other i) as [[r ->] | Hother].
  - assert (r <> room) by (intros Heq; apply Hnot; rewrite Heq; by left).
    cbn [step forget]. destruct r as [| c r]; [done |].
    destruct (decide ((c :: r) ∈ subscriptions n)) as [Hin | Hnin].
    + by rewrite join_same_room.
    + rewrite join_fresh_room by done.
      unfold forget. cbn [fst snd with_subscriptions subscriptions].
      apply not_elem_of_singleton. congruence.
  - rewrite step_subscriptions; done.
Qed.

(** At most one room at any time. *)
Lemma reachable_one_room (id : jsstring) (n : State) :
  reachable id n -> (size (subscriptions n) <= 1)%nat.
Proof.
  induction 1 as [| i n Hn IH].
  - unfold fresh. cbn [subscriptions]. rewrite size_empty. lia.
  - destruct (join_or_other i) as [[r ->] | Hother].
    + cbn [step forget]. destruct r as [| c r]; [done |].
      destruct (decide ((c :: r) ∈ subscriptions n)) as [Hin | Hout].
      * by rewrite join_same_room.
      * rewrite join_fresh_room by done.
        unfold forget. cbn [fst snd with_subscriptions subscriptions].
        rewrite size_singleton. lia.
    + rewrite step_subscriptions; done.
Qed.

Lemma steps_reachable (id : jsstring) (inputs : list Input) (n : State) :
  reachable id n -> reachable id (steps inputs n).1.
Proof.
  revert n. induction inputs as [| i inputs IH]; intros n Hn; simpl; [done |].
  destruct (step i n) as [n1 out1] eqn:Hstep.
  specialize (IH n1). destruct (steps inputs n1) as [n2 out2]. simpl in *.
  apply IH. replace n1 with (step i n).1 by (by rewrite Hstep). by constructor.
Qed.

Lemma receive_cases (room sender text sent : jsstring) (n : State) :
  receive room sender text sent n =
    if bool_decide (room ∈ subscriptions n)
    then (with_history
            (remember (dedup_key (mkMessage sender text sent Remote)) (history n)) n,
          if bool_decide (dedup_key (mkMessage sender text sent Remote) ∈ history n)
          then []
          else [Emit (chat_message (mkMessage sender text sent Remote))])
    else (n, []).
Proof.
  unfold receive. destruct (decide (room ∈ subscriptions n)) as [Hin | Hout].
  - rewrite (bool_decide_eq_true_2 _ Hin).
    destruct (decide _) as [Hk | Hk].
    + by rewrite (bool_decide_eq_true_2 _ Hk).
    + by rewrite (bool_decide_eq_false_2 _ Hk).
  - by rewrite (bool_decide_eq_false_2 _ Hout).
Qed.

Lemma remember_front (k : DedupKey) (h : list DedupKey) :
  (0 < window)%nat -> k ∈ remember k h.
Proof.
  intros Hwin. unfold remember. destruct window; [lia |]. simpl. by left.
Qed.

(** What one input announces is what the step emits. *)
Lemma step_chat_events (i : Input) (n : State) :
  chat_events (step i n).2 =
    match announced i n with Some p => [p] | None => [] end.
Proof.
  destruct i; simpl.
  - unfold initialize. destruct (listen_addresses n); [destruct bound |]; reflexivity.
  - unfold connect, start_dial. destruct (parse_address addr); [| reflexivity].
    destruct (decide _); [reflexivity |]. destruct result; reflexivity.
  - reflexivity.
  - unfold join. destruct room; [reflexivity |].
    destruct (decide _); [reflexivity |]. simpl.
    unfold chat_events. rewrite omap_app. simpl. rewrite app_nil_r.
    induction (elements (subscriptions n)); [reflexivity | assumption].
  - destruct (decide (subscriptions n = ∅)) as [Hsub | Hsub].
    + rewrite publish_not_joined by done.
      rewrite bool_decide_eq_false_2; [reflexivity | by intros Hne].
    + rewrite (bool_decide_eq_true_2 _ Hsub). destruct text as [| c text].
      * by rewrite publish_empty.
      * rewrite publish_accepted by done. simpl. f_equal.
        induction (elements (subscriptions n)); [reflexivity | assumption].
  - rewrite receive_cases.
    destruct (bool_decide (room ∈ _)); [| reflexivity].
    by destruct (bool_decide (_ ∈ history n)).
Qed.

Lemma chat_events_app (xs ys : list Output) :
  chat_events (xs ++ ys) = chat_events xs ++ chat_events ys.
Proof. apply omap_app. Qed.

Lemma steps_chat_events (inputs : list Input) (n : State) :
  chat_events (steps inputs n).2 = announcements inputs n.
Proof.
  revert n. induction inputs as [| i inputs IH]; intros n; simpl; [reflexivity |].
  pose proof (step_chat_events i n) as Hstep. specialize (IH (step i n).1).
  destruct (step i n) as [n1 out1]. simpl in *.
  destruct (steps inputs n1) as [n2 out2]. simpl in *.
  rewrite chat_events_app, Hstep, IH. by destruct (announced i n).
Qed.

Lemma announcements_app (xs ys : list Input) (n : State) :
  announcements (xs ++ ys) n =
    announcements xs n ++ announcements ys (steps xs n).1.
Proof.
  rewrite <- !steps_chat_events, steps_app. simpl. apply chat_events_app.
Qed.

(** A failed [connect] registers nothing. *)
Lemma connect_failure (addr : jsstring) (result : DialOutcome) (n : State) (e : Error) :
  (connect addr result n).1.1 = inl e ->
  connections (connect addr result n).1.2 = connections n
  /\ chat_events (connect addr result n).2 = []
  /\ PeerSetChanged ∉ (connect addr result n).2.
Proof.
  assert (Hno : forall out : list Output,
             Forall (fun o => o <> PeerSetChanged) out -> PeerSetChanged ∉ out).
  { intros out Hall Hin. by eapply Forall_forall in Hall. }
  unfold connect, start_dial. destruct (parse_address addr) as [remote |].
  - destruct (decide _); simpl.
    + intros _. repeat split. apply Hno. constructor.
    + destruct result; simpl; [discriminate | |]; intros _; repeat split;
        apply Hno; repeat constructor; discriminate.
  - simpl. intros _. repeat split. apply Hno. constructor.
Qed.

Lemma connect_invalid (addr : jsstring) (result : DialOutcome) (n : State) :
  (connect addr result n).1.1 = inl InvalidAddressError ->
  connect addr result n = (inl InvalidAddressError, n, []).
Proof.
  unfold connect, start_dial. destruct (parse_address addr) as [remote |]; [| done].
  destruct (decide _); simpl; [discriminate |]. destruct result; discriminate.
Qed.

Lemma error_name_inj (e1 e2 : Error) : error_name e1 = error_name e2 -> e1 = e2.
Proof.
  destruct e1, e2; intros Heq; try reflexivity;
    vm_compute in Heq; discriminate Heq.
Qed.

Lemma publish_empty_error (text now : jsstring) (n : State) :
  (publish text now n).1.1 = inl EmptyMessageError -> text = [].
Proof.
  unfold publish. destruct (elements (subscriptions n)); simpl; [discriminate |].
  destruct text; simpl; [done | discriminate].
Qed.

Lemma connect_errors (addr : jsstring) (result : DialOutcome) (n : State)
    (e : Error) :
  (connect addr result n).1.1 = inl e ->
  e = InvalidAddressError \/ e = AlreadyDialingError
  \/ e = DialTimeoutError \/ e = UnreachablePeerError.
Proof.
  unfold connect, start_dial. destruct (parse_address addr); simpl.
  - destruct (decide _); simpl; [intros [= <-]; tauto |].
    destruct result; simpl; [discriminate | |]; intros [= <-]; tauto.
  - intros [= <-]. tauto.
Qed.

Lemma initialize_errors (bound : list jsstring) (n : State) (e : Error) :
  (initialize bound n).1.1 = inl e -> e = TransportBindError.
Proof.
  unfold initialize. destruct (listen_addresses n); [destruct bound |]; simpl;
    congruence.
Qed.

Lemma command_send_message (env : Env) (text : jsstring) (n : State) :
  command env (lit "send_message") (Some (JObj [(lit "message", JStr text)])) n =
    Some (settle (fun _ => JNull) (publish text (env_now env) n).1.1,
          (publish text (env_now env) n).1.2, (publish text (env_now env) n).2).
Proof.
  unfold command.
  pick_command.
  simpl. by destruct (publish text (env_now env) n) as [[r n'] out].
Qed.

Lemma command_join_room (env : Env) (room : jsstring) (n : State) :
  command env (lit "join_room") (Some (JObj [(lit "roomName", JStr room)])) n =
    Some (settle (fun _ => JNull) (join room n).1.1, (join room n).1.2, (join room n).2).
Proof.
  unfold command.
  pick_command.
  simpl. by destruct (join room n) as [[r n'] out].
Qed.

Lemma command_connect_to_peer (env : Env) (addr : jsstring) (n : State) :
  command env (lit "connect_to_peer") (Some (JObj [(lit "addr", JStr addr)])) n =
    Some (settle (fun _ => JNull) (connect addr (env_dial env addr) n).1.1,
          (connect addr (env_dial env addr) n).1.2,
          (connect addr (env_dial env addr) n).2).
Proof.
  unfold command.
  pick_command.
  simpl. by destruct (connect addr (env_dial env addr) n) as [[r n'] out].
Qed.

(** C3. [send_message] (that is, [publish]) on a node that has joined no
    room fails with NotJoinedError and emits nothing, whatever the
    content; on a joined node empty content fails with
    EmptyMessageError; and whichever way [publish] fails, the node is
    left exactly as it was and nothing is sent. *)
Theorem publish_validation :
  (forall (n : State) (text now : jsstring),
      subscriptions n = ∅ ->
      publish text now n = (inl NotJoinedError, n, []))
  /\ (forall (id : jsstring) (inputs : list Input) (env : Env) (text : jsstring),
        (forall room, JoinRoom room ∉ inputs) ->
        let n := (steps inputs (fresh id)).1 in
        command env (lit "send_message") (Some (JObj [(lit "message", JStr text)])) n
        = Some (Reject (JStr (lit "NotJoinedError")), n, [])
        /\ step (Publish text (env_now env)) n = (n, []))
  /\ (forall (n : State) (now : jsstring),
        subscriptions n <> ∅ ->
        publish [] now n = (inl EmptyMessageError, n, []))
  /\ (forall (n : State) (text now : jsstring) (e : Error),
        (publish text now n).1.1 = inl e ->
        publish text now n = (inl e, n, [])
        /\ chat_events (publish text now n).2 = []
        /\ (e = NotJoinedError \/ e = EmptyMessageError)).
Proof.
  split; [| split; [| split]].
  - intros n text now Hsub. by apply publish_not_joined.
  - intros id inputs env text Hnot n.
    assert (Hsub : subscriptions n = ∅).
    { unfold n. by rewrite steps_subscriptions. }
    split.
    + rewrite command_send_message, publish_not_joined by done. reflexivity.
    + simpl. by rewrite publish_not_joined.
  - intros n now Hsub. by apply publish_empty.
  - intros n text now e Hfail.
    pose proof (publish_errors _ _ _ _ Hfail) as He.
    rewrite (publish_failure _ _ _ _ Hfail). done.
Qed.

(** C5. For every valid (non-empty) room name [room], a second
    [join room] right after the first is a no-op: it succeeds, leaves the
    node as the first call left it, and produces no output at all, so no
    second subscription and no event. *)
Theorem join_idempotent (room : jsstring) (n : State) :
  room <> [] ->
  let first := join room n in
  first.1.1 = inr tt
  /\ join room first.1.2 = (inr tt, first.1.2, [])
  /\ steps [JoinRoom room; JoinRoom room] n = (first.1.2, first.2)
  /\ room ∈ subscriptions first.1.2.
Proof.
  intros Hne first.
  destruct room as [| c room]; [done |].
  destruct (join_nonempty c room n) as [Hok Hin]. fold first in Hok, Hin.
  assert (Hsecond : join (c :: room) first.1.2 = (inr tt, first.1.2, []))
    by (by apply join_same_room).
  repeat split; try done.
  cbn [steps step forget]. fold first. rewrite Hsecond. simpl.
  by rewrite app_nil_r.
Qed.

(** C4. On a node joined to [r1], joining another room [r2] tears the
    [r1] subscription down: afterwards [r2] is the only subscription, an
    unsubscribe for [r1] has gone out, and a message another peer
    publishes to [r1] is not delivered, now or after any later inputs
    that do not join [r1] again.  A node is joined to at most one room at
    any time. *)
Theorem join_replaces_room :
  (forall (id : jsstring) (n : State) (r1 r2 : jsstring),
      reachable id n -> r1 ∈ subscriptions n -> r2 <> [] -> r2 <> r1 ->
      let n2 := (join r2 n).1.2 in
      (join r2 n).1.1 = inr tt
      /\ subscriptions n2 = {[r2]}
      /\ (r1 ∉ subscriptions n2)
      /\ NetUnsubscribe r1 ∈ (join r2 n).2
      /\ forall (later : list Input) (sender text sent : jsstring),
           JoinRoom r1 ∉ later ->
           let n3 := (steps later n2).1 in
           receive r1 sender text sent n3 = (n3, []))
  /\ (forall (id : jsstring) (n : State),
        reachable id n -> (size (subscriptions n) <= 1)%nat).
Proof.
  split; [| apply reachable_one_room].
  intros id n r1 r2 Hreach Hin1 Hne Hdiff n2.
  assert (Hout2 : r2 ∉ subscriptions n).
  { intros Hin2. pose proof (reachable_one_room id n Hreach) as Hsize.
    assert (Hsub : ({[r1]} ∪ {[r2]} : gset jsstring) ⊆ subscriptions n).
    { apply union_subseteq. split; by apply singleton_subseteq_l. }
    apply subseteq_size in Hsub.
    rewrite size_union in Hsub.
    - rewrite !size_singleton in Hsub. lia.
    - apply disjoint_singleton_l, not_elem_of_singleton. congruence. }
  pose proof (join_fresh_room r2 n Hne Hout2) as Hjoin.
  unfold n2. rewrite Hjoin. cbn [fst snd with_subscriptions subscriptions].
  assert (Hgone : r1 ∉ ({[r2]} : gset jsstring)).
  { apply not_elem_of_singleton. congruence. }
  split; [done |]. split; [done |]. split; [done |]. split.
  - apply elem_of_app. left. apply list_elem_of_fmap. exists r1.
    split; [done |]. by apply elem_of_elements.
  - intros later sender text sent Hlater.
    rewrite receive_cases, bool_decide_eq_false_2; [done |].
    apply steps_not_subscribed; done.
Qed.

(** C6. [connect_to_peer("")] fails with InvalidAddressError, changes
    nothing and so registers no connection.  Each caller-input error
    (invalid address, invalid room name, empty message) is decided before
    anything is handed to the network: the operation's outputs are empty
    and the node is unchanged, also when the call comes in through the
    command API.  A [connect] that fails in any way leaves the
    connected-peer set as it was. *)
Theorem connect_validation :
  (forall (result : DialOutcome) (n : State),
      connect [] result n = (inl InvalidAddressError, n, []))
  /\ (forall (addr : jsstring) (result : DialOutcome) (n : State),
        parse_address addr = None ->
        connect addr result n = (inl InvalidAddressError, n, []))
  /\ (forall (addr : jsstring) (result : DialOutcome) (n : State),
        (connect addr result n).1.1 = inl InvalidAddressError ->
        connect addr result n = (inl InvalidAddressError, n, []))
  /\ (forall (room : jsstring) (n : State),
        (join room n).1.1 = inl InvalidRoomNameError ->
        join room n = (inl InvalidRoomNameError, n, []))
  /\ (forall (text now : jsstring) (n : State),
        (publish text now n).1.1 = inl EmptyMessageError ->
        publish text now n = (inl EmptyMessageError, n, []))
  /\ (forall (addr : jsstring) (result : DialOutcome) (n : State) (e : Error),
        (connect addr result n).1.1 = inl e ->
        connectedPeers (connect addr result n).1.2 = connectedPeers n
        /\ connections (connect addr result n).1.2 = connections n
        /\ PeerSetChanged ∉ (connect addr result n).2)
  /\ (forall (addr : jsstring) (n : State),
        connectedPeers (connect addr DialTimedOut n).1.2 = connectedPeers n
        /\ connectedPeers (connect addr DialUnreachable n).1.2 = connectedPeers n)
  /\ (forall (env : Env) (cmd : jsstring) (args : option JsVal) (n n' : State)
        (out : list Output) (e : Error),
        command env cmd args n = Some (Reject (JStr (error_name e)), n', out) ->
        e = InvalidAddressError \/ e = InvalidRoomNameError
        \/ e = EmptyMessageError ->
        n' = n /\ Forall (fun o => is_network_io o = false) out /\ out = []).
Proof.
  split; [| split; [| split; [| split; [| split; [| split; [| split]]]]]].
  - intros result n. reflexivity.
  - intros addr result n Hbad. unfold connect, start_dial. by rewrite Hbad.
  - apply connect_invalid.
  - intros room n Hfail. by apply join_failure in Hfail as (? & _ & _).
  - intros text now n Hfail. by apply publish_failure.
  - intros addr result n e Hfail.
    destruct (connect_failure addr result n e Hfail) as (Hconn & _ & Hquiet).
    unfold connectedPeers. by rewrite Hconn.
  - intros addr n. unfold connectedPeers, connect, start_dial.
    destruct (parse_address addr); [| done].
    destruct (decide _); done.
  - intros env cmd args n n' out e Hcmd He.
    assert (Hlocal : forall A (o : Outcome A) (enc : A -> JsVal),
               (o.1.1 = inl e -> o = (inl e, n, [])) ->
               Some (settle enc o.1.1, o.1.2, o.2)
               = Some (Reject (JStr (error_name e)), n', out) ->
               n' = n /\ Forall (fun o => is_network_io o = false) out /\ out = []).
    { intros A [[[e' | a] n1] out1] enc Hfail; simpl; [| discriminate].
      intros [= Hname <- <-]. apply error_name_inj in Hname. subst e'.
      specialize (Hfail eq_refl). by injection Hfail as -> ->. }
    unfold command in Hcmd. revert Hcmd. pick_command.
    + destruct (initialize (env_bound env) n) as [[[e' | id] n1] out1] eqn:Hinit;
        simpl; [| discriminate].
      intros [= Hname _ _]. apply error_name_inj in Hname. subst e'.
      assert (e = TransportBindError)
        by (eapply initialize_errors; by rewrite Hinit).
      destruct He as [-> | [-> | ->]]; discriminate.
    + discriminate.
    + destruct args as [[| | | | | props] |]; try discriminate.
      destruct (lookup_prop (lit "message") props) as [| | | text | |];
        try discriminate.
      simpl. intros Hcmd.
      apply (Hlocal _ (publish text (env_now env) n) (fun _ => JNull)).
      * apply publish_failure.
      * by destruct (publish text (env_now env) n) as [[r n1] out1].
    + destruct args as [[| | | | | props] |]; try discriminate.
      destruct (lookup_prop (lit "roomName") props) as [| | | room | |];
        try discriminate.
      simpl. intros Hcmd.
      apply (Hlocal _ (join room n) (fun _ => JNull)).
      * intros Hfail. by apply join_failure in Hfail as (? & _ & _).
      * by destruct (join room n) as [[r n1] out1].
    + destruct args as [[| | | | | props] |]; try discriminate.
      destruct (lookup_prop (lit "addr") props) as [| | | addr | |];
        try discriminate.
      simpl. intros Hcmd.
      assert (Hinvalid : e = InvalidAddressError).
      { destruct (connect addr (env_dial env addr) n) as [[[e' | u] n1] out1]
          eqn:Hconn; simpl in Hcmd; [| discriminate].
        injection Hcmd as Hname _ _. apply error_name_inj in Hname. subst e'.
        destruct (connect_errors addr (env_dial env addr) n e) as [-> | [-> | [-> | ->]]];
          [by rewrite Hconn | done | | |];
          destruct He as [He | [He | He]]; discriminate He. }
      subst e.
      apply (Hlocal _ (connect addr (env_dial env addr) n) (fun _ => JNull)).
      * apply connect_invalid.
      * by destruct (connect addr (env_dial env addr) n) as [[r n1] out1].
    + discriminate.
Qed.

(** C2. Every message that is published locally and accepted, and every
    remote message that passes the topic check and the dedup window, is
    announced by exactly one chat-message event {from, content,
    timestamp, is_self} carrying the message's own sender, content and
    timestamp, nothing else is announced, and the events come out in the
    order the messages arrived; a message delivered twice in a row is
    announced once.  The listener of the component pushes each payload,
    as it is, onto the end of its message list. *)
Theorem chat_events_once_in_order :
  (forall (inputs : list Input) (n : State),
      chat_events (steps inputs n).2 = announcements inputs n)
  /\ (forall (i : Input) (n : State),
        chat_events (step i n).2 =
          match announced i n with Some p => [p] | None => [] end)
  /\ (forall (xs ys : list Input) (n : State),
        announcements (xs ++ ys) n =
          announcements xs n ++ announcements ys (steps xs n).1)
  /\ (forall (i : Input) (n : State) (p : JsVal),
        announced i n = Some p ->
        exists (sender text stamp : jsstring) (self : bool),
          p = JObj [(lit "from", JStr sender); (lit "content", JStr text);
                    (lit "timestamp", JStr stamp); (lit "is_self", JBool self)]
          /\ ((i = Publish text stamp /\ sender = identity n /\ self = true
               /\ subscriptions n <> ∅ /\ text <> [])
              \/ (exists room, i = Receive room sender text stamp /\ self = false
                  /\ room ∈ subscriptions n
                  /\ dedup_key (mkMessage sender text stamp Remote) ∉ history n)))
  /\ (forall (n : State) (text now : jsstring),
        subscriptions n <> ∅ -> text <> [] ->
        announced (Publish text now) n
        = Some (chat_message (mkMessage (identity n) text now Local)))
  /\ (forall (n : State) (room sender text sent : jsstring),
        room ∈ subscriptions n ->
        dedup_key (mkMessage sender text sent Remote) ∉ history n ->
        announced (Receive room sender text sent) n
        = Some (chat_message (mkMessage sender text sent Remote)))
  /\ (forall (n : State) (room sender text sent : jsstring),
        (0 < window)%nat ->
        announced (Receive room sender text sent)
          (step (Receive room sender text sent) n).1 = None)
  /\ (forall (W : Type) (RT : Runtime W) (payloads : list JsVal) (c : Component) (w : W),
        component_of (run (ChatMessage <$> payloads) c w)
        = mkComponent (set_messages (messages (refs c) ++ payloads) (refs c))
            (unlisten c)).
Proof.
  split; [| split; [| split; [| split; [| split; [| split; [| split]]]]]].
  - apply steps_chat_events.
  - apply step_chat_events.
  - apply announcements_app.
  - intros i n p Hp. destruct i; simpl in Hp; try discriminate.
    + destruct (bool_decide _) eqn:Hsub; simpl in Hp; [| discriminate].
      destruct text as [| c text]; simpl in Hp; [discriminate |].
      injection Hp as <-. apply bool_decide_eq_true_1 in Hsub.
      eexists _, _, _, _. split; [reflexivity |]. left. done.
    + destruct (bool_decide (room ∈ _)) eqn:Hroom; simpl in Hp; [| discriminate].
      destruct (bool_decide (_ ∈ history n)) eqn:Hkey; simpl in Hp; [discriminate |].
      injection Hp as <-.
      apply bool_decide_eq_true_1 in Hroom. apply bool_decide_eq_false_1 in Hkey.
      eexists _, _, _, _. split; [reflexivity |]. right. by exists room.
  - intros n text now Hsub Hne. simpl.
    rewrite (bool_decide_eq_true_2 _ Hsub). by destruct text.
  - intros n room sender text sent Hroom Hkey. simpl.
    by rewrite (bool_decide_eq_true_2 _ Hroom), (bool_decide_eq_false_2 _ Hkey).
  - intros n room sender text sent Hwin. cbn [step announced].
    rewrite receive_cases.
    destruct (bool_decide (room ∈ subscriptions n)) eqn:Hroom; simpl.
    + rewrite Hroom. simpl.
      rewrite bool_decide_eq_true_2; [done |]. by apply remember_front.
    + by rewrite Hroom.
  - intros W RT payloads c w. by rewrite listener_appends.
Qed.

End NodeFacts.

(** ** The component driving the node *)

Section WiredFacts.
Import Node Wired.

(** What the node can reject a call of the component with. *)
Lemma wired_send_rejection (text : jsstring) (w0 w' : World) (err : JsVal) :
  text <> [] ->
  rt_invoke (lit "send_message") (Some (JObj [(lit "message", JStr text)])) w0
  = (Reject err, w') ->
  err = JStr (error_name NotJoinedError).
Proof.
  intros Hne. cbn [rt_invoke node_runtime]. rewrite command_send_message.
  destruct (publish text (env_now (env w0)) (node w0)) as [[[e |] n'] out] eqn:Hpub;
    simpl; [| discriminate].
  intros [= <- _].
  destruct (publish_errors text (env_now (env w0)) (node w0) e) as [-> | ->];
    [by rewrite Hpub | done |].
  exfalso. apply Hne. eapply publish_empty_error. by rewrite Hpub.
Qed.

Lemma wired_join_rejection (room : jsstring) (w0 w' : World) (err : JsVal) :
  room <> [] ->
  rt_invoke (lit "join_room") (Some (JObj [(lit "roomName", JStr room)])) w0
  <> (Reject err, w').
Proof.
  intros Hne. cbn [rt_invoke node_runtime]. rewrite command_join_room.
  destruct room as [| c room]; [done |].
  destruct (join_nonempty c room (node w0)) as [-> _]. discriminate.
Qed.

Lemma wired_connect_rejection (addr : jsstring) (w0 w' : World) (err : JsVal) :
  rt_invoke (lit "connect_to_peer") (Some (JObj [(lit "addr", JStr addr)])) w0
  = (Reject err, w') ->
  exists e, err = JStr (error_name e)
            /\ (e = InvalidAddressError \/ e = AlreadyDialingError
                \/ e = DialTimeoutError \/ e = UnreachablePeerError).
Proof.
  cbn [rt_invoke node_runtime]. rewrite command_connect_to_peer.
  destruct (connect addr _ (node w0)) as [[[e |] n'] out] eqn:Hconn;
    simpl; [| discriminate].
  intros [= <- _]. exists e. split; [done |].
  eapply connect_errors. by rewrite Hconn.
Qed.

Lemma wired_init_rejection (w0 w' : World) (err : JsVal) :
  rt_invoke (lit "init_p2p") None w0 = (Reject err, w') ->
  err = JStr (error_name TransportBindError).
Proof.
  cbn [rt_invoke node_runtime]. unfold command. pick_command.
  destruct (initialize _ (node w0)) as [[[e |] n'] out] eqn:Hinit;
    simpl; [| discriminate].
  intros [= <- _].
  assert (e = TransportBindError) as ->; [| done].
  eapply initialize_errors. by rewrite Hinit.
Qed.

Lemma wired_info_rejection (w0 w' : World) (err : JsVal) :
  rt_invoke (lit "get_node_info") None w0 <> (Reject err, w').
Proof.
  cbn [rt_invoke node_runtime]. unfold command. pick_command. discriminate.
Qed.

(** On the node, the component only ever logs these six rejections. *)
Lemma wired_dispatch_rejections (a : Action) (c : Component) (w : World)
    (label : jsstring) (err : JsVal) :
  EConsoleError label (Rejected err) ∈ trace_of (dispatch a c w) ->
  exists e, err = JStr (error_name e)
            /\ (e = TransportBindError \/ e = NotJoinedError
                \/ e = InvalidAddressError \/ e = AlreadyDialingError
                \/ e = DialTimeoutError \/ e = UnreachablePeerError).
Proof.
  intros Hin. apply dispatch_rejections in Hin.
  destruct Hin as [(text & w0 & w' & Hrej) | [(w0 & w' & Hrej) | [(w0 & w' & Hrej)
    | [(w0 & w' & Hrej & Ht) | [(w0 & w' & Hrej & Ht) | (w0 & w' & Hrej & Ht)]]]]].
  - discriminate Hrej.
  - apply wired_init_rejection in Hrej. eauto 10.
  - by apply wired_info_rejection in Hrej.
  - apply wired_send_rejection in Hrej; [eauto 10 |].
    by apply passes_trim_test in Ht as (_ & Hne & _).
  - apply wired_join_rejection in Hrej; [done |].
    by apply passes_trim_test in Ht as (_ & Hne & _).
  - apply wired_connect_rejection in Hrej as (e & -> & He). exists e. tauto.
Qed.

End WiredFacts.

(** ** Runs of the component *)

Section RunFacts.
Context {W : Type} `{RT : Runtime W}.

(** Whatever a run does, one of its actions does. *)
Lemma run_trace_elem (e : Effect) (actions : list Action) (c : Component) (w : W) :
  e ∈ trace_of (run actions c w) ->
  exists a c0 w0, e ∈ trace_of (dispatch a c0 w0).
Proof.
  revert c w. induction actions as [| a actions IH]; intros c w.
  - simpl. intros Hin. by apply elem_of_nil in Hin.
  - change (run (a :: actions)) with (h_bind (dispatch a) (fun _ => run actions)).
    rewrite trace_of_bind. intros [Hin | Hin]%elem_of_app; [eauto | by eapply IH].
Qed.

Lemma elem_of_invocations (cmd : jsstring) (args : option JsVal) (t : list Effect) :
  (cmd, args) ∈ invocations t <-> EInvoke cmd args ∈ t.
Proof.
  unfold invocations. rewrite list_elem_of_omap. split.
  - intros (e & Hin & Heq). destruct e; try discriminate. by injection Heq as -> ->.
  - intros Hin. by exists (EInvoke cmd args).
Qed.

(** The calls a run makes are calls of single actions. *)
Lemma run_invocations (cmd : jsstring) (args : option JsVal)
    (actions : list Action) (c : Component) (w : W) :
  (cmd, args) ∈ invocations (trace_of (run actions c w)) ->
  exists a c0 w0, (cmd, args) ∈ invocations (trace_of (dispatch a c0 w0)).
Proof.
  intros Hin%elem_of_invocations%run_trace_elem. destruct Hin as (a & c0 & w0 & Hin).
  exists a, c0, w0. by apply elem_of_invocations.
Qed.

End RunFacts.

(** ** The command contract seen from the component *)

(** C1. The commands the component invokes are exactly the five of the
    command table, [init_p2p], [get_node_info], [send_message],
    [join_room] and [connect_to_peer], each with the input fields of its
    row and string values: [send_message] with {message},
    [join_room] with {roomName} and [connect_to_peer] with {addr}, taken
    from the matching input box. *)
Theorem command_surface :
  Node.command_table.*1 =
    [lit "init_p2p"; lit "get_node_info"; lit "send_message"; lit "join_room";
     lit "connect_to_peer"]
  /\ NoDup (Node.command_table.*1)
  /\ (forall (W : Type) (RT : Runtime W) (actions : list Action) (c : Component)
        (w : W) (cmd : jsstring) (args : option JsVal),
        (cmd, args) ∈ invocations (trace_of (run actions c w)) ->
        exists fields,
          (cmd, fields) ∈ Node.command_table /\ input_shape args = Some fields)
  /\ (forall (W : Type) (RT : Runtime W) (w : W) (cmd : jsstring)
        (fields : list jsstring),
        (cmd, fields) ∈ Node.command_table ->
        exists a c args, (cmd, args) ∈ invocations (trace_of (dispatch a c w)))
  /\ (forall (W : Type) (RT : Runtime W) (c : Component) (w : W),
        (truthy (trim (inputMessage (refs c))) = true ->
         invocations (trace_of (sendMessage c w)) =
           [(lit "send_message",
             Some (JObj [(lit "message", JStr (inputMessage (refs c)))]))])
        /\ (truthy (trim (roomInput (refs c))) = true ->
            invocations (trace_of (joinRoom c w)) =
              [(lit "join_room",
                Some (JObj [(lit "roomName", JStr (roomInput (refs c)))]))])
        /\ (truthy (trim (peerAddressInput (refs c))) = true ->
            invocations (trace_of (connectToPeer c w)) =
              [(lit "connect_to_peer",
                Some (JObj [(lit "addr", JStr (peerAddressInput (refs c)))]))])).
Proof.
  split; [reflexivity |]. split.
  { apply (bool_decide_unpack _). by vm_compute. }
  split; [| split].
  - intros W RT actions c w cmd args Hin.
    apply run_invocations in Hin as (a & c0 & w0 & Hin).
    pose proof (dispatch_invocations a c0 w0) as Hcases. simpl in Hcases.
    assert (Hrow : forall name fields,
               (name, fields) ∈ Node.command_table ->
               cmd = name -> input_shape args = Some fields ->
               exists fields, (cmd, fields) ∈ Node.command_table
                              /\ input_shape args = Some fields).
    { intros name fields Hmem -> Hshape. by exists fields. }
    destruct Hcases as [Heq | [Heq | [Heq | [Heq | [[Heq _] | [[Heq _] | [Heq _]]]]]]];
      rewrite Heq in Hin;
      repeat (apply elem_of_cons in Hin as [Hin | Hin];
              [injection Hin as -> -> |]);
      try (by apply elem_of_nil in Hin).
    + apply (Hrow (lit "init_p2p") []); [| done..].
      unfold Node.command_table. repeat constructor.
    + apply (Hrow (lit "init_p2p") []); [| done..].
      unfold Node.command_table. repeat constructor.
    + apply (Hrow (lit "get_node_info") []); [| done..].
      unfold Node.command_table. repeat constructor.
    + apply (Hrow (lit "get_node_info") []); [| done..].
      unfold Node.command_table. repeat constructor.
    + apply (Hrow (lit "send_message") [lit "message"]); [| done..].
      unfold Node.command_table. repeat constructor.
    + apply (Hrow (lit "join_room") [lit "roomName"]); [| done..].
      unfold Node.command_table. repeat constructor.
    + apply (Hrow (lit "connect_to_peer") [lit "addr"]); [| done..].
      unfold Node.command_table. repeat constructor.
  - intros W RT w cmd fields Hin. unfold Node.command_table in Hin.
    repeat (apply elem_of_cons in Hin as [Hin | Hin]; [injection Hin as -> -> |]);
      try (by apply elem_of_nil in Hin).
    + exists Mounted, Samples.at_setup, None.
      change (dispatch Mounted) with (@mounted W RT).
      rewrite mounted_trace, invocations_app. apply elem_of_app. right.
      apply initP2P_invokes.
    + exists (Timer CbUpdateNodeInfo), Samples.at_setup, None.
      change (dispatch (Timer CbUpdateNodeInfo)) with (@updateNodeInfo W RT).
      rewrite (proj1 (updateNodeInfo_trace Samples.at_setup w)). by left.
    + exists Send, Samples.typed,
        (Some (JObj [(lit "message", JStr (lit "hello"))])).
      run_handler; by left.
    + exists Join, Samples.typed,
        (Some (JObj [(lit "roomName", JStr (lit "room1"))])).
      run_handler; by left.
    + exists Connect, Samples.typed,
        (Some (JObj [(lit "addr", JStr (lit "/ip4/10.0.0.7/tcp/4001/p2p/12D3KooWBob"))])).
      run_handler; by left.
  - intros W RT c w. repeat split; intros Ht.
    + unfold sendMessage, h_bind at 1, read. rewrite Ht. run_handler; done.
    + unfold joinRoom, h_bind at 1, read. rewrite Ht. run_handler; done.
    + unfold connectToPeer, h_bind at 1, read. rewrite Ht. run_handler; done.
Qed.

(** C7. Once [init_p2p] has resolved, [initP2P] invokes [get_node_info]
    once, at once, and sets one interval timer that runs
    [updateNodeInfo] every 5000 ms, the five seconds the specification
    recommends for polling [connectedPeers()]; no action sets any other
    interval; every firing of that timer invokes [get_node_info] once, so
    [elapsed] ms later it has been invoked [1 + elapsed / 5000] times. *)
Theorem refresh_cadence (W : Type) (RT : Runtime W) (c : Component) (w w1 : W)
    (id : JsVal) :
  rt_invoke (lit "init_p2p") None w = (Resolve id, w1) ->
  (exists rest,
      trace_of (initP2P c w) =
        [EInvoke (lit "init_p2p") None; EInvoke (lit "get_node_info") None;
         ESetInterval CbUpdateNodeInfo 5000] ++ rest
      /\ invocations rest = [] /\ intervals rest = [])
  /\ times_invoked (lit "get_node_info") (trace_of (initP2P c w)) = 1%nat
  /\ intervals (trace_of (initP2P c w))
     = [(CbUpdateNodeInfo, 1000 * Node.recommended_poll_seconds)]
  /\ (forall (c' : Component) (w' : W),
        invocations (trace_of (run_callback CbUpdateNodeInfo c' w'))
        = [(lit "get_node_info", None)])
  /\ (forall (a : Action) (c' : Component) (w' : W),
        intervals (trace_of (dispatch a c' w')) = []
        \/ intervals (trace_of (dispatch a c' w')) = [(CbUpdateNodeInfo, 5000)])
  /\ (forall elapsed : Z,
        times_invoked (lit "get_node_info")
          (trace_of
             (h_bind initP2P
                (fun _ => run (replicate (firings 5000 elapsed) (Timer CbUpdateNodeInfo)))
                c w))
        = S (Z.to_nat (elapsed / 5000))).
Proof.
  intros Hok.
  destruct (initP2P_resolved c w w1 id Hok) as (rest & Htrace & Hinv & Hint).
  assert (Hone : times_invoked (lit "get_node_info") (trace_of (initP2P c w)) = 1%nat).
  { rewrite Htrace, times_invoked_app. unfold times_invoked at 2.
    rewrite Hinv. reflexivity. }
  split; [by exists rest |]. split; [exact Hone |]. split; [| split; [| split]].
  - rewrite Htrace. unfold intervals. rewrite omap_app.
    fold (intervals rest). rewrite Hint. reflexivity.
  - intros c' w'. apply updateNodeInfo_trace.
  - apply dispatch_intervals.
  - intros elapsed. rewrite trace_of_bind, times_invoked_app, Hone.
    rewrite timer_firings_trace. reflexivity.
Qed.

(** C8. [sendMessage], [joinRoom] and [connectToPeer] return at once,
    invoking nothing and changing nothing, when their input is empty or
    all white space; so whatever [send_message], [join_room] or
    [connect_to_peer] call the component makes carries a string with a
    unit that is not white space, and on the node the rejections the
    component sees are never EmptyMessageError or InvalidRoomNameError,
    nor does [connect_to_peer] ever run on the empty address. *)
Theorem blank_input_not_invoked :
  (forall (W : Type) (RT : Runtime W) (c : Component) (w : W),
      (forallb is_trimmed (inputMessage (refs c)) = true ->
       sendMessage c w = (tt, c, w, []))
      /\ (forallb is_trimmed (roomInput (refs c)) = true ->
          joinRoom c w = (tt, c, w, []))
      /\ (forallb is_trimmed (peerAddressInput (refs c)) = true ->
          connectToPeer c w = (tt, c, w, [])))
  /\ (forall (W : Type) (RT : Runtime W) (actions : list Action) (c : Component)
        (w : W) (cmd : jsstring) (args : option JsVal),
        (cmd, args) ∈ invocations (trace_of (run actions c w)) ->
        cmd ∈ [lit "send_message"; lit "join_room"; lit "connect_to_peer"] ->
        exists key value,
          args = Some (JObj [(key, JStr value)])
          /\ value <> [] /\ forallb is_trimmed value = false)
  /\ (forall (actions : list Action) (c : Component) (w : Wired.World)
        (label : jsstring) (err : JsVal),
        EConsoleError label (Rejected err) ∈ trace_of (run actions c w) ->
        err <> JStr (Node.error_name Node.EmptyMessageError)
        /\ err <> JStr (Node.error_name Node.InvalidRoomNameError)).
Proof.
  split; [| split].
  - intros W RT c w. repeat split; intros Hblank%blank_fails_trim_test.
    + unfold sendMessage, h_bind, read. by rewrite Hblank.
    + unfold joinRoom, h_bind, read. by rewrite Hblank.
    + unfold connectToPeer, h_bind, read. by rewrite Hblank.
  - intros W RT actions c w cmd args Hin Hcmd.
    apply run_invocations in Hin as (a & c0 & w0 & Hin).
    pose proof (dispatch_invocations a c0 w0) as Hcases. simpl in Hcases.
    destruct Hcases as [Heq | [Heq | [Heq | [Heq | [[Heq Ht] | [[Heq Ht] | [Heq Ht]]]]]]];
      rewrite Heq in Hin;
      repeat (apply elem_of_cons in Hin as [Hin | Hin];
              [injection Hin as -> -> |]);
      try (by apply elem_of_nil in Hin);
      try (other_command Hcmd);
      apply passes_trim_test in Ht as (Hall & Hne & _); eauto.
  - intros actions c w label err Hin.
    apply run_trace_elem in Hin as (a & c0 & w0 & Hin).
    apply wired_dispatch_rejections in Hin as (e & -> & He).
    split; intros [= Hname].
    + apply (error_name_inj e Node.EmptyMessageError) in Hname. subst e.
      repeat (destruct He as [He | He]; [discriminate He |]); discriminate He.
    + apply (error_name_inj e Node.InvalidRoomNameError) in Hname. subst e.
      repeat (destruct He as [He | He]; [discriminate He |]); discriminate He.
Qed.

(** ** The theorems at concrete inputs *)

Lemma shortPeerID_spec_witness :
  shortPeerID (lit "12D3KooWAlice") = lit "12D3KooWAlice"
  /\ shortPeerID (lit "12D3KooWQk5s8mNpTZ9xY4vLhR2eB7")
     = lit "12D3KooW...hR2eB7".
Proof.
  split.
  - apply (proj1 (shortPeerID_spec (lit "12D3KooWAlice"))).
    intros Hgt. vm_compute in Hgt. discriminate Hgt.
  - destruct (proj2 (shortPeerID_spec (lit "12D3KooWQk5s8mNpTZ9xY4vLhR2eB7")) eq_refl)
      as (Heq & _).
    rewrite Heq. reflexivity.
Defined.

Lemma handlers_atomic_on_failure_witness :
  inputMessage (refs (component_of (sendMessage Samples.typed Samples.stopped_clock)))
  = lit "hello"
  /\ roomInput (refs (component_of (joinRoom Samples.typed Samples.stopped_clock)))
     = lit "room1"
  /\ inputMessage
       (refs (component_of
                (sendMessage Samples.typed
                   (Wired.mkWorld Samples.alice_in_room1 Samples.quiet_env []))))
     = [].
Proof.
  destruct (handlers_atomic_on_failure Samples.typed Samples.stopped_clock)
    as (Hsend & Hjoin & _ & _).
  destruct (Hsend _ _ eq_refl eq_refl) as (_ & Hinput & _).
  destruct (Hjoin _ _ eq_refl eq_refl) as (_ & _ & _ & Hroom & _).
  destruct (handlers_atomic_on_failure Samples.typed
              (Wired.mkWorld Samples.alice_in_room1 Samples.quiet_env []))
    as (_ & _ & _ & Hok).
  split; [exact Hinput |]. split; [exact Hroom |].
  rewrite (Hok JNull
             (Wired.mkWorld Samples.alice_in_room1 Samples.quiet_env
                (Node.publish (lit "hello") (lit "2025-01-01T00:00:00.000Z")
                   Samples.alice_in_room1).2)
             eq_refl); reflexivity.
Defined.

Lemma publish_validation_witness :
  Node.publish (lit "hello") (lit "2025-01-01T00:00:00.000Z") Samples.alice
  = (inl Node.NotJoinedError, Samples.alice, [])
  /\ Node.command Samples.quiet_env (lit "send_message")
       (Some (JObj [(lit "message", JStr (lit "hello"))]))
       (@Node.steps Node.sample_dedup
          [Node.Initialize [lit "/ip4/127.0.0.1/tcp/4001/p2p/12D3KooWAlice"];
           Node.Receive (lit "room1") (lit "12D3KooWBob") (lit "hi")
             (lit "2025-01-01T00:00:01.000Z")]
          (Node.fresh (lit "12D3KooWAlice"))).1
     = Some (Reject (JStr (lit "NotJoinedError")),
             (@Node.steps Node.sample_dedup
                [Node.Initialize [lit "/ip4/127.0.0.1/tcp/4001/p2p/12D3KooWAlice"];
                 Node.Receive (lit "room1") (lit "12D3KooWBob") (lit "hi")
                   (lit "2025-01-01T00:00:01.000Z")]
                (Node.fresh (lit "12D3KooWAlice"))).1,
             [])
  /\ Node.publish [] (lit "2025-01-01T00:00:00.000Z") Samples.alice_in_room1
     = (inl Node.EmptyMessageError, Samples.alice_in_room1, [])
  /\ Node.chat_events
       (Node.publish [] (lit "2025-01-01T00:00:00.000Z") Samples.alice).2 = [].
Proof.
  destruct (@publish_validation Node.sample_dedup) as (Hnot & Hbefore & Hempty & Hfail).
  split; [apply Hnot; reflexivity |].
  split.
  - refine (proj1 (Hbefore (lit "12D3KooWAlice") _ Samples.quiet_env (lit "hello") _)).
    intros room Hin.
    repeat (apply elem_of_cons in Hin as [Hin | Hin]; [discriminate Hin |]).
    by apply elem_of_nil in Hin.
  - split; [apply Hempty; intros Hnone; vm_compute in Hnone; discriminate Hnone |].
    exact (proj1 (proj2 (Hfail Samples.alice [] (lit "2025-01-01T00:00:00.000Z")
                           Node.NotJoinedError eq_refl))).
Defined.

Lemma join_idempotent_witness :
  Node.join (lit "room1") Samples.alice_in_room1
  = (inr tt, Samples.alice_in_room1, []).
Proof.
  refine (proj1 (proj2 (@join_idempotent Node.sample_dedup (lit "room1")
                          Samples.alice _))).
  discriminate.
Defined.

Lemma join_replaces_room_witness :
  Node.subscriptions (Node.join (lit "room2") Samples.alice_in_room1).1.2
  = {[lit "room2"]}
  /\ @Node.receive Node.sample_dedup (lit "room1") (lit "12D3KooWBob") (lit "hi")
       (lit "2025-01-01T00:00:01.000Z")
       (@Node.steps Node.sample_dedup
          [Node.Publish (lit "hello") (lit "2025-01-01T00:00:02.000Z")]
          (Node.join (lit "room2") Samples.alice_in_room1).1.2).1
     = ((@Node.steps Node.sample_dedup
           [Node.Publish (lit "hello") (lit "2025-01-01T00:00:02.000Z")]
           (Node.join (lit "room2") Samples.alice_in_room1).1.2).1, [])
  /\ (size (Node.subscriptions Samples.alice_in_room1) <= 1)%nat.
Proof.
  destruct (@join_replaces_room Node.sample_dedup) as (Hswitch & Hone).
  assert (Hne : lit "room2" <> []) by discriminate.
  assert (Hdiff : lit "room2" <> lit "room1").
  { intros Heq. vm_compute in Heq. discriminate Heq. }
  assert (Hreach : @Node.reachable Node.sample_dedup (lit "12D3KooWAlice")
                     Samples.alice_in_room1).
  { exact (@Node.reach_step Node.sample_dedup _ (Node.JoinRoom (lit "room1"))
             Samples.alice (@Node.reach_fresh Node.sample_dedup _)). }
  assert (Hin : lit "room1" ∈ Node.subscriptions Samples.alice_in_room1)
    by (vm_compute; reflexivity).
  destruct (Hswitch _ _ (lit "room1") (lit "room2") Hreach Hin Hne Hdiff)
    as (_ & Hsubs & _ & _ & Hlater).
  split; [exact Hsubs |]. split.
  - apply Hlater. intros Hjoin.
    repeat (apply elem_of_cons in Hjoin as [Hjoin | Hjoin]; [discriminate Hjoin |]).
    by apply elem_of_nil in Hjoin.
  - exact (Hone _ _ Hreach).
Defined.

Lemma connect_validation_witness :
  Node.connect [] Node.DialConnected Samples.alice
  = (inl Node.InvalidAddressError, Samples.alice, [])
  /\ Node.connect (lit "12D3KooWBob") Node.DialConnected Samples.alice
     = (inl Node.InvalidAddressError, Samples.alice, [])
  /\ Node.join [] Samples.alice = (inl Node.InvalidRoomNameError, Samples.alice, [])
  /\ Node.publish [] (lit "2025-01-01T00:00:00.000Z") Samples.alice_in_room1
     = (inl Node.EmptyMessageError, Samples.alice_in_room1, [])
  /\ Node.connectedPeers
       (Node.connect (lit "/ip4/10.0.0.7/tcp/4001/p2p/12D3KooWBob")
          Node.DialUnreachable Samples.alice).1.2
     = Node.connectedPeers Samples.alice
  /\ (exists n' out,
         Node.command Samples.quiet_env (lit "connect_to_peer")
           (Some (JObj [(lit "addr", JStr [])])) Samples.alice
         = Some (Reject (JStr (lit "InvalidAddressError")), n', out)
         /\ n' = Samples.alice /\ out = []).
Proof.
  destruct connect_validation
    as (Hempty & Hbad & Haddr & Hroom & Htext & Hfail & _ & Hapi).
  split; [apply Hempty |].
  split; [apply Hbad; reflexivity |].
  split; [apply Hroom; reflexivity |].
  split.
  - apply Htext. reflexivity.
  - split.
    + refine (proj1 (Hfail _ Node.DialUnreachable Samples.alice
                       Node.UnreachablePeerError _)).
      reflexivity.
    + exists Samples.alice, []. split; [reflexivity |].
      destruct (Hapi Samples.quiet_env (lit "connect_to_peer")
                  (Some (JObj [(lit "addr", JStr [])])) Samples.alice
                  Samples.alice [] Node.InvalidAddressError eq_refl
                  (or_introl eq_refl))
        as (Hsame & _ & Hquiet).
      by split.
Defined.

Lemma chat_events_once_in_order_witness :
  @Node.announced Node.sample_dedup
    (Node.Publish (lit "hello") (lit "2025-01-01T00:00:02.000Z"))
    Samples.alice_in_room1
  = Some (JObj [(lit "from", JStr (lit "12D3KooWAlice"));
                (lit "content", JStr (lit "hello"));
                (lit "timestamp", JStr (lit "2025-01-01T00:00:02.000Z"));
                (lit "is_self", JBool true)])
  /\ @Node.announced Node.sample_dedup
       (Node.Receive (lit "room1") (lit "12D3KooWBob") (lit "hi")
          (lit "2025-01-01T00:00:01.000Z"))
       Samples.alice_in_room1
     = Some (JObj [(lit "from", JStr (lit "12D3KooWBob"));
                   (lit "content", JStr (lit "hi"));
                   (lit "timestamp", JStr (lit "2025-01-01T00:00:01.000Z"));
                   (lit "is_self", JBool false)])
  /\ @Node.announced Node.sample_dedup
       (Node.Receive (lit "room1") (lit "12D3KooWBob") (lit "hi")
          (lit "2025-01-01T00:00:01.000Z"))
       (@Node.step Node.sample_dedup
          (Node.Receive (lit "room1") (lit "12D3KooWBob") (lit "hi")
             (lit "2025-01-01T00:00:01.000Z"))
          Samples.alice_in_room1).1
     = None
  /\ (exists (sender text stamp : jsstring) (self : bool),
         Node.chat_message
           (Node.mkMessage (lit "12D3KooWBob") (lit "hi")
              (lit "2025-01-01T00:00:01.000Z") Node.Remote)
         = JObj [(lit "from", JStr sender); (lit "content", JStr text);
                 (lit "timestamp", JStr stamp); (lit "is_self", JBool self)]).
Proof.
  destruct (@chat_events_once_in_order Node.sample_dedup)
    as (_ & _ & _ & Hshape & Hlocal & Hremote & Htwice & _).
  assert (Hne : lit "hello" <> []) by discriminate.
  assert (Hfresh : @Node.dedup_key Node.sample_dedup
                     (Node.mkMessage (lit "12D3KooWBob") (lit "hi")
                        (lit "2025-01-01T00:00:01.000Z") Node.Remote)
                   ∉ Node.history Samples.alice_in_room1).
  { apply not_elem_of_nil. }
  assert (Hin : lit "room1" ∈ Node.subscriptions Samples.alice_in_room1)
    by (vm_compute; reflexivity).
  assert (Hsome : Node.subscriptions Samples.alice_in_room1 <> ∅).
  { intros Hnone. vm_compute in Hnone. discriminate Hnone. }
  pose proof (Hremote Samples.alice_in_room1 (lit "room1") (lit "12D3KooWBob")
                (lit "hi") (lit "2025-01-01T00:00:01.000Z") Hin Hfresh) as Hbob.
  split; [exact (Hlocal Samples.alice_in_room1 (lit "hello") _ Hsome Hne) |].
  split; [exact Hbob |].
  split.
  - apply Htwice. simpl. lia.
  - destruct (Hshape _ _ _ Hbob) as (sender & text & stamp & self & Heq & _).
    by exists sender, text, stamp, self.
Defined.

Lemma refresh_cadence_witness :
  times_invoked (lit "get_node_info")
    (trace_of (initP2P Samples.at_setup Samples.alice_world)) = 1%nat
  /\ intervals (trace_of (initP2P Samples.at_setup Samples.alice_world))
     = [(CbUpdateNodeInfo, 5000)]
  /\ times_invoked (lit "get_node_info")
       (trace_of
          (h_bind initP2P
             (fun _ => run (replicate (firings 5000 12000) (Timer CbUpdateNodeInfo)))
             Samples.at_setup Samples.alice_world))
     = 3%nat.
Proof.
  assert (Hinit : rt_invoke (lit "init_p2p") None Samples.alice_world
                  = (Resolve (JStr (lit "12D3KooWAlice")),
                     (rt_invoke (lit "init_p2p") None Samples.alice_world).2))
    by reflexivity.
  destruct (refresh_cadence Wired.World _ Samples.at_setup Samples.alice_world
              _ _ Hinit)
    as (_ & Hone & Htimer & _ & _ & Hlater).
  split; [exact Hone |]. split; [exact Htimer |]. exact (Hlater 12000).
Defined.

Lemma command_surface_witness :
  (exists fields,
      (lit "join_room", fields) ∈ Node.command_table
      /\ input_shape (Some (JObj [(lit "roomName", JStr (lit "room1"))])) = Some fields)
  /\ (exists a c args,
         (lit "connect_to_peer", args)
         ∈ invocations (trace_of (dispatch a c Samples.stopped_clock)))
  /\ invocations (trace_of (sendMessage Samples.typed Samples.stopped_clock))
     = [(lit "send_message", Some (JObj [(lit "message", JStr (lit "hello"))]))].
Proof.
  destruct command_surface as (_ & _ & Hrows & Hused & Hshape).
  split.
  - apply (Hrows Offline.World _ [TypeRoom (lit "room1"); Join] Samples.at_setup
             Samples.stopped_clock).
    vm_compute. by left.
  - split.
    + apply (Hused Offline.World _ Samples.stopped_clock (lit "connect_to_peer")
               [lit "addr"]).
      unfold Node.command_table. repeat constructor.
    + exact (proj1 (Hshape Offline.World _ Samples.typed Samples.stopped_clock) eq_refl).
Defined.

Lemma blank_input_not_invoked_witness :
  sendMessage Samples.blank Samples.stopped_clock
  = (tt, Samples.blank, Samples.stopped_clock, [])
  /\ (exists key value,
         Some (JObj [(lit "message", JStr (lit "hello"))])
         = Some (JObj [(key, JStr value)])
         /\ value <> [] /\ forallb is_trimmed value = false)
  /\ JStr (lit "NotJoinedError") <> JStr (Node.error_name Node.EmptyMessageError).
Proof.
  destruct blank_input_not_invoked as (Hblank & Hargs & Hnever).
  split.
  - exact (proj1 (Hblank Offline.World _ Samples.blank Samples.stopped_clock) eq_refl).
  - split.
    + apply (Hargs Offline.World _ [Send] Samples.typed Samples.stopped_clock
               (lit "send_message")).
      * vm_compute. by left.
      * by left.
    + refine (proj1 (Hnever [Send] Samples.typed Samples.alice_world
                       (lit "Failed to send message:") _ _)).
      vm_compute. right. by left.
Defined.

(** ** One session, end to end *)

(** Mount, join ["room1"], send ["hello"]: the node announces the message
    once with [is_self] set, and the listener shows it; the message box
    is cleared and the room is current. *)
Example session_join_and_send :
  let session :=
    run [Mounted; TypeRoom (lit "room1"); Join; TypeMessage (lit "hello"); Send]
      Samples.at_setup Samples.alice_world in
  let announced := Node.chat_events (Wired.outbox (world_of session)) in
  announced =
    [JObj [(lit "from", JStr (lit "12D3KooWAlice"));
           (lit "content", JStr (lit "hello"));
           (lit "timestamp", JStr (lit "2025-01-01T00:00:00.000Z"));
           (lit "is_self", JBool true)]]
  /\ messages (refs (component_of
                       (Wired.deliver announced (component_of session)
                          (world_of session))))
     = announced
  /\ inputMessage (refs (component_of session)) = []
  /\ currentRoom (refs (component_of session)) = lit "room1"
  /\ invocations (trace_of session) =
       [(lit "init_p2p", None); (lit "get_node_info", None);
        (lit "join_room", Some (JObj [(lit "roomName", JStr (lit "room1"))]));
        (lit "send_message", Some (JObj [(lit "message", JStr (lit "hello"))]))].
Proof. vm_compute. repeat split. Qed.

(** Sending before joining: the node rejects, the component shows one
    System message and keeps the text. *)
Example session_send_before_join :
  let session :=
    run [Mounted; TypeMessage (lit "hello"); Send]
      Samples.at_setup Samples.alice_world in
  Node.chat_events (Wired.outbox (world_of session)) = []
  /\ inputMessage (refs (component_of session)) = lit "hello"
  /\ messages (refs (component_of session)) =
       [JObj [(lit "from", JStr (lit "System"));
              (lit "content",
               JStr (0x26A0%N :: lit " Failed to send message: NotJoinedError"));
              (lit "timestamp", JStr (lit "2025-01-01T00:00:00.000Z"));
              (lit "is_self", JBool false)]].
Proof. vm_compute. repeat split. Qed.

(** * More of the component *)

Section ComponentFacts.
Context {W : Type} `{RT : Runtime W}.

Lemma run_cons (a : Action) (rest : list Action) (c : Component) (w : W) :
  run (a :: rest) c w =
    ((run rest (component_of (dispatch a c w)) (world_of (dispatch a c w))).1.1.1,
     component_of (run rest (component_of (dispatch a c w)) (world_of (dispatch a c w))),
     world_of (run rest (component_of (dispatch a c w)) (world_of (dispatch a c w))),
     trace_of (dispatch a c w)
       ++ trace_of (run rest (component_of (dispatch a c w)) (world_of (dispatch a c w)))).
Proof.
  change (run (a :: rest)) with (h_bind (dispatch a) (fun _ => run rest)).
  unfold h_bind, component_of, world_of, trace_of.
  destruct (dispatch a c w) as [[[u c1] w1] t1]. simpl.
  by destruct (run rest c1 w1) as [[[u2 c2] w2] t2].
Qed.

Lemma run_app (xs ys : list Action) (c : Component) (w : W) :
  component_of (run (xs ++ ys) c w)
  = component_of (run ys (component_of (run xs c w)) (world_of (run xs c w)))
  /\ world_of (run (xs ++ ys) c w)
     = world_of (run ys (component_of (run xs c w)) (world_of (run xs c w)))
  /\ trace_of (run (xs ++ ys) c w)
     = trace_of (run xs c w)
         ++ trace_of (run ys (component_of (run xs c w)) (world_of (run xs c w))).
Proof.
  revert c w. induction xs as [| a xs IH]; intros c w.
  - done.
  - rewrite <- app_comm_cons, !run_cons.
    destruct (IH (component_of (dispatch a c w)) (world_of (dispatch a c w)))
      as (Hc & Hw & Ht).
    unfold component_of, world_of, trace_of in *. simpl in *.
    rewrite Hc, Hw, Ht. by rewrite app_assoc.
Qed.

Lemma component_of_run_cons (a : Action) (rest : list Action) (c : Component)
    (w : W) :
  component_of (run (a :: rest) c w)
  = component_of (run rest (component_of (dispatch a c w))
                    (world_of (dispatch a c w))).
Proof. by rewrite run_cons. Qed.

Lemma trace_of_run_cons (a : Action) (rest : list Action) (c : Component)
    (w : W) :
  trace_of (run (a :: rest) c w)
  = trace_of (dispatch a c w)
      ++ trace_of (run rest (component_of (dispatch a c w))
                     (world_of (dispatch a c w))).
Proof. by rewrite run_cons. Qed.


(** What every action keeps, every run keeps. *)
Lemma run_invariant (P : Component -> Prop) :
  (forall a c w, P c -> P (component_of (dispatch a c w))) ->
  forall actions c w, P c -> P (component_of (run actions c w)).
Proof.
  intros Hstep actions. induction actions as [| a actions IH]; intros c w Hc.
  - exact Hc.
  - rewrite component_of_run_cons. apply IH, Hstep, Hc.
Qed.

End ComponentFacts.

(** Reading a key an object does not have gives [undefined]. *)
Lemma lookup_prop_missing (k : jsstring) (props : list (jsstring * JsVal)) :
  k ∉ props.*1 -> lookup_prop k props = JUndefined.
Proof.
  unfold lookup_prop. generalize JUndefined as found.
  induction props as [| [k' v] props IH]; intros found Hmissing; [done |].
  simpl in *. apply not_elem_of_cons in Hmissing as [Hne Hrest].
  destruct (decide (k = k')); [done |]. by apply IH.
Qed.

Section Polling.
Context {W : Type} `{RT : Runtime W}.

(** [updateNodeInfo] writes [addresses] and [connectedPeers] and nothing
    else: whatever the backend answers, every other ref is as before and
    no message is pushed.  An object answer fills the two refs with its
    [addresses] and [connected_peers] fields, [undefined] for a field
    the object does not have; a rejection, or an answer that is [null]
    or [undefined], leaves the component as it was and is only logged. *)
Theorem updateNodeInfo_effect (c : Component) (w : W) :
  let c' := component_of (updateNodeInfo c w) in
  set_connectedPeers (connectedPeers (refs c'))
    (set_addresses (addresses (refs c')) (refs c)) = refs c'
  /\ unlisten c' = unlisten c
  /\ messages (refs c') = messages (refs c)
  /\ (forall props w',
        rt_invoke (lit "get_node_info") None w = (Resolve (JObj props), w') ->
        addresses (refs c') = lookup_prop (lit "addresses") props
        /\ connectedPeers (refs c') = lookup_prop (lit "connected_peers") props
        /\ trace_of (updateNodeInfo c w) = [EInvoke (lit "get_node_info") None])
  /\ (forall props w',
        rt_invoke (lit "get_node_info") None w = (Resolve (JObj props), w') ->
        (lit "addresses" ∉ props.*1 -> addresses (refs c') = JUndefined)
        /\ (lit "connected_peers" ∉ props.*1 ->
            connectedPeers (refs c') = JUndefined))
  /\ (forall e w',
        rt_invoke (lit "get_node_info") None w = (Reject e, w') ->
        c' = c
        /\ trace_of (updateNodeInfo c w)
           = [EInvoke (lit "get_node_info") None;
              EConsoleError (lit "Failed to get node info:") (Rejected e)])
  /\ (forall info w',
        rt_invoke (lit "get_node_info") None w = (Resolve info, w') ->
        info = JNull \/ info = JUndefined ->
        c' = c
        /\ trace_of (updateNodeInfo c w)
           = [EInvoke (lit "get_node_info") None;
              EConsoleError (lit "Failed to get node info:") TypeError]).
Proof.
  destruct c as [[] u].
  split; [run_handler; reflexivity |].
  split; [run_handler; reflexivity |].
  split; [run_handler; reflexivity |].
  split; [| split; [| split]].
  - intros props w' Hok. unfold updateNodeInfo, h_bind, invoke.
    rewrite Hok. repeat split.
  - intros props w' Hok. unfold updateNodeInfo, h_bind, invoke.
    rewrite Hok. split; intros Hmissing; by apply lookup_prop_missing.
  - intros e w' Hno. unfold updateNodeInfo, h_bind, invoke.
    rewrite Hno. repeat split.
  - intros info w' Hok Hnone. unfold updateNodeInfo, h_bind, invoke.
    rewrite Hok. destruct Hnone as [-> | ->]; repeat split.
Qed.

(** [handleKeydown] opens the join dialog on Ctrl+j and the connect dialog
    on Ctrl+p, suppressing the browser's default for that key, and does
    nothing at all for any other key or without Ctrl.  It never closes a
    dialog and never calls the backend. *)
Theorem handleKeydown_effect (ctrlKey : bool) (key : jsstring) (c : Component) (w : W) :
  (ctrlKey = false \/ (key <> lit "j" /\ key <> lit "p") ->
   handleKeydown ctrlKey key c w = (tt, c, w, []))
  /\ (handleKeydown true (lit "j") c w
      = (tt, mkComponent (set_joinRoomMode true (refs c)) (unlisten c), w,
         [EPreventDefault]))
  /\ (handleKeydown true (lit "p") c w
      = (tt, mkComponent (set_connectPeerMode true (refs c)) (unlisten c), w,
         [EPreventDefault]))
  /\ (joinRoomMode (refs c) = true ->
      joinRoomMode (refs (component_of (handleKeydown ctrlKey key c w))) = true)
  /\ (connectPeerMode (refs c) = true ->
      connectPeerMode (refs (component_of (handleKeydown ctrlKey key c w))) = true)
  /\ invocations (trace_of (handleKeydown ctrlKey key c w)) = []
  /\ world_of (handleKeydown ctrlKey key c w) = w.
Proof.
  destruct c as [[] u].
  split; [| split; [reflexivity | split; [reflexivity |]]].
  - intros [-> | [Hj Hp]]; [reflexivity |].
    unfold handleKeydown, h_bind.
    rewrite (bool_decide_eq_false_2 _ Hj), (bool_decide_eq_false_2 _ Hp).
    by destruct ctrlKey.
  - unfold handleKeydown, h_bind.
    destruct ctrlKey, (bool_decide (key = lit "j")), (bool_decide (key = lit "p"));
      simpl; repeat split; done.
Qed.

(** [copyAddress(addr, index)]: when the clipboard takes the text, row
    [index] is marked as copied and a 2000 ms timer is set; when that timer
    fires the mark is gone, so a component that showed no mark is back
    where it was.  When the clipboard refuses, nothing changes, no timer
    is set and the failure is only logged.  The timer clears whatever mark
    is there: after it fires no row of the list is marked, however many
    copies came before it. *)
Theorem copyAddress_effect (addr : jsstring) (index : Z) (c : Component) (w : W) :
  (forall v w',
      rt_clipboard_write addr w = (Resolve v, w') ->
      copyAddress addr index c w
      = (tt, mkComponent (set_copiedIndex index (refs c)) (unlisten c), w',
         [EClipboardWrite addr; ESetTimeout CbResetCopied 2000])
      /\ View.copy_label (refs (component_of (copyAddress addr index c w))) index
         = 0x2713%N :: lit " Copied"
      /\ (forall other, other <> index ->
            View.copy_label (refs (component_of (copyAddress addr index c w))) other
            = lit "Copy")
      /\ (copiedIndex (refs c) = -1 ->
          component_of (run [Copy addr index; Timer CbResetCopied] c w) = c))
  /\ (forall e w',
        rt_clipboard_write addr w = (Reject e, w') ->
        copyAddress addr index c w
        = (tt, c, w',
           [EClipboardWrite addr; EConsoleError (lit "Failed to copy:") (Rejected e)]))
  /\ (forall (before : list Action) (row : Z),
        0 <= row ->
        View.copy_label
          (refs (component_of (run (before ++ [Timer CbResetCopied]) c w))) row
        = lit "Copy")
  /\ invocations (trace_of (copyAddress addr index c w)) = [].
Proof.
  split; [| split; [| split]].
  - intros v w' Hok.
    assert (Hrun : copyAddress addr index c w
                   = (tt, mkComponent (set_copiedIndex index (refs c)) (unlisten c), w',
                      [EClipboardWrite addr; ESetTimeout CbResetCopied 2000])).
    { unfold copyAddress, h_bind at 1, clipboard_write. by rewrite Hok. }
    split; [exact Hrun |]. split; [| split].
    + rewrite Hrun. unfold View.copy_label. simpl. by rewrite Z.eqb_refl.
    + intros other Hother. rewrite Hrun. unfold View.copy_label. simpl.
      destruct (Z.eqb_spec index other); [congruence | done].
    + intros Hnone. rewrite !run_cons.
      change (dispatch (Copy addr index) c w) with (copyAddress addr index c w).
      rewrite Hrun. destruct c as [[] u]. simpl in *. by subst.
  - intros e w' Hno. unfold copyAddress, h_bind at 1, clipboard_write.
    by rewrite Hno.
  - intros before row Hrow.
    destruct (run_app before [Timer CbResetCopied] c w) as (-> & _).
    unfold View.copy_label. simpl. destruct row; [reflexivity | reflexivity | lia].
  - run_handler; done.
Qed.

End Polling.

Section Submitting.
Context {W : Type} `{RT : Runtime W}.

(** [joinRoom] when [join_room] resolves: the room typed becomes the
    current room, the dialog closes and the box is emptied, nothing else
    changes and no message is pushed; pressing Join again right away calls
    nothing and changes nothing. *)
Theorem joinRoom_success (c : Component) (w w' : W) (v : JsVal) :
  truthy (trim (roomInput (refs c))) = true ->
  rt_invoke (lit "join_room")
    (Some (JObj [(lit "roomName", JStr (roomInput (refs c)))])) w = (Resolve v, w') ->
  joinRoom c w
  = (tt,
     mkComponent
       (set_roomInput []
          (set_joinRoomMode false (set_currentRoom (roomInput (refs c)) (refs c))))
       (unlisten c),
     w',
     [EInvoke (lit "join_room")
        (Some (JObj [(lit "roomName", JStr (roomInput (refs c)))]))])
  /\ messages (refs (component_of (joinRoom c w))) = messages (refs c)
  /\ trace_of (run [Join; Join] c w) = trace_of (joinRoom c w)
  /\ component_of (run [Join; Join] c w) = component_of (joinRoom c w).
Proof.
  intros Hin Hok.
  assert (Hrun : joinRoom c w
                 = (tt,
                    mkComponent
                      (set_roomInput []
                         (set_joinRoomMode false
                            (set_currentRoom (roomInput (refs c)) (refs c))))
                      (unlisten c),
                    w',
                    [EInvoke (lit "join_room")
                       (Some (JObj [(lit "roomName", JStr (roomInput (refs c)))]))])).
  { unfold joinRoom, h_bind, read, invoke. rewrite Hin. simpl. by rewrite Hok. }
  split; [exact Hrun |]. split; [by rewrite Hrun |].
  rewrite !run_cons.
  change (dispatch Join c w) with (joinRoom c w). rewrite Hrun.
  unfold component_of, world_of, trace_of. simpl. done.
Qed.

(** [connectToPeer] when [connect_to_peer] resolves: the dialog closes and
    the address box is emptied, nothing else changes and no message is
    pushed; pressing Connect again right away calls nothing. *)
Theorem connectToPeer_success (c : Component) (w w' : W) (v : JsVal) :
  truthy (trim (peerAddressInput (refs c))) = true ->
  rt_invoke (lit "connect_to_peer")
    (Some (JObj [(lit "addr", JStr (peerAddressInput (refs c)))])) w = (Resolve v, w') ->
  connectToPeer c w
  = (tt,
     mkComponent (set_peerAddressInput [] (set_connectPeerMode false (refs c)))
       (unlisten c),
     w',
     [EInvoke (lit "connect_to_peer")
        (Some (JObj [(lit "addr", JStr (peerAddressInput (refs c)))]))])
  /\ messages (refs (component_of (connectToPeer c w))) = messages (refs c)
  /\ currentRoom (refs (component_of (connectToPeer c w))) = currentRoom (refs c)
  /\ trace_of (run [Connect; Connect] c w) = trace_of (connectToPeer c w)
  /\ component_of (run [Connect; Connect] c w) = component_of (connectToPeer c w).
Proof.
  intros Hin Hok.
  assert (Hrun : connectToPeer c w
                 = (tt,
                    mkComponent
                      (set_peerAddressInput [] (set_connectPeerMode false (refs c)))
                      (unlisten c),
                    w',
                    [EInvoke (lit "connect_to_peer")
                       (Some (JObj [(lit "addr", JStr (peerAddressInput (refs c)))]))])).
  { unfold connectToPeer, h_bind, read, invoke. rewrite Hin. simpl. by rewrite Hok. }
  split; [exact Hrun |]. split; [by rewrite Hrun |]. split; [by rewrite Hrun |].
  rewrite !run_cons.
  change (dispatch Connect c w) with (connectToPeer c w). rewrite Hrun.
  unfold component_of, world_of, trace_of. simpl. done.
Qed.

(** Pressing Send twice sends once: after a [send_message] that resolved
    the box is empty and the second [sendMessage] returns without calling
    anything.  After one that rejected the text is still there, and the
    second [sendMessage] makes the same call again. *)
Theorem sendMessage_twice (c : Component) (w w' : W) :
  truthy (trim (inputMessage (refs c))) = true ->
  (forall v,
      rt_invoke (lit "send_message")
        (Some (JObj [(lit "message", JStr (inputMessage (refs c)))])) w
      = (Resolve v, w') ->
      invocations (trace_of (run [Send; Send] c w))
      = [(lit "send_message",
          Some (JObj [(lit "message", JStr (inputMessage (refs c)))]))]
      /\ component_of (run [Send; Send] c w) = component_of (sendMessage c w))
  /\ (forall e,
        rt_invoke (lit "send_message")
          (Some (JObj [(lit "message", JStr (inputMessage (refs c)))])) w
        = (Reject e, w') ->
        invocations (trace_of (run [Send; Send] c w))
        = [(lit "send_message",
            Some (JObj [(lit "message", JStr (inputMessage (refs c)))]));
           (lit "send_message",
            Some (JObj [(lit "message", JStr (inputMessage (refs c)))]))]).
Proof.
  intros Hin. split.
  - intros v Hok.
    assert (Hrun : sendMessage c w
                   = (tt, mkComponent (set_inputMessage [] (refs c)) (unlisten c), w',
                      [EInvoke (lit "send_message")
                         (Some (JObj [(lit "message", JStr (inputMessage (refs c)))]))])).
    { unfold sendMessage, h_bind, read, invoke. rewrite Hin. simpl. by rewrite Hok. }
    rewrite !run_cons. change (dispatch Send c w) with (sendMessage c w).
    rewrite Hrun. unfold component_of, world_of, trace_of. simpl. done.
  - intros e Hno.
    rewrite !run_cons. change (dispatch Send c w) with (sendMessage c w).
    assert (Hrun : exists c1 t1,
               sendMessage c w = (tt, c1, w', t1)
               /\ inputMessage (refs c1) = inputMessage (refs c)
               /\ invocations t1
                  = [(lit "send_message",
                      Some (JObj [(lit "message", JStr (inputMessage (refs c)))]))]).
    { unfold sendMessage, h_bind, read, invoke. rewrite Hin. simpl. rewrite Hno.
      simpl. eexists _, _. repeat split. }
    destruct Hrun as (c1 & t1 & -> & Hsame & Hinv).
    unfold component_of, world_of, trace_of. simpl.
    rewrite app_nil_r, invocations_app, Hinv.
    change (dispatch Send c1 w') with (sendMessage c1 w').
    unfold sendMessage, h_bind, read, invoke. rewrite Hsame, Hin. simpl.
    destruct (rt_invoke _ _ w') as [[v2 | e2] w2]; reflexivity.
Qed.

End Submitting.

Section Invariants.
Context {W : Type} `{RT : Runtime W}.

Lemma dispatch_messages (a : Action) (c : Component) (w : W) :
  messages (refs (component_of (dispatch a c w))) = messages (refs c)
  \/ exists m, messages (refs (component_of (dispatch a c w)))
               = messages (refs c) ++ [m].
Proof. destruct a; run_handler; eauto. Qed.

(** The message list only grows, and only at its end: after any run the
    old list is a prefix of the new one, and each action adds at most one
    message. *)
Theorem messages_append_only (actions : list Action) (c : Component) (w : W) :
  messages (refs c) `prefix_of` messages (refs (component_of (run actions c w)))
  /\ (length (messages (refs (component_of (run actions c w))))
      <= length (messages (refs c)) + length actions)%nat.
Proof.
  revert c w. induction actions as [| a actions IH]; intros c w.
  - unfold component_of, run, h_ret. simpl. split; [reflexivity | lia].
  - rewrite component_of_run_cons.
    destruct (IH (component_of (dispatch a c w)) (world_of (dispatch a c w)))
      as [Hpre Hlen].
    destruct (dispatch_messages a c w) as [Heq | [m Heq]]; rewrite Heq in Hpre, Hlen.
    + split; [exact Hpre | simpl; lia].
    + split.
      * etransitivity; [| exact Hpre]. by apply prefix_app_r.
      * rewrite length_app in Hlen. simpl in *. lia.
Qed.



Lemma dispatch_isInitialized (a : Action) (c : Component) (w : W) :
  isInitialized (refs (component_of (dispatch a c w))) = isInitialized (refs c)
  \/ (a = Mounted /\ isInitialized (refs (component_of (dispatch a c w))) = true
      /\ exists id w1, rt_invoke (lit "init_p2p") None w = (Resolve id, w1)
                       /\ peerID (refs (component_of (dispatch a c w))) = id).
Proof. destruct a; run_handler; eauto 8. Qed.

Lemma dispatch_peerID (a : Action) (c : Component) (w : W) :
  peerID (refs (component_of (dispatch a c w))) = peerID (refs c)
  \/ (a = Mounted /\ isInitialized (refs (component_of (dispatch a c w))) = true).
Proof. destruct a; run_handler; eauto. Qed.

(** [isInitialized] is set by a mount whose [init_p2p] resolved and is
    never unset: once true it stays true through any run, without a mount
    it stays as it was, and as long as it is false after a run from
    [setup] the peer id is still the empty string. *)
Theorem isInitialized_monotone (actions : list Action) (c : Component) (w : W) :
  (isInitialized (refs c) = true ->
   isInitialized (refs (component_of (run actions c w))) = true)
  /\ (Mounted ∉ actions ->
      isInitialized (refs (component_of (run actions c w))) = isInitialized (refs c)
      /\ peerID (refs (component_of (run actions c w))) = peerID (refs c))
  /\ (refs c = initial ->
      isInitialized (refs (component_of (run actions c w))) = false ->
      peerID (refs (component_of (run actions c w))) = JStr []).
Proof.
  split; [| split].
  - apply (run_invariant (fun c => isInitialized (refs c) = true)).
    clear. intros a c w Hc.
    destruct (dispatch_isInitialized a c w) as [-> | (_ & -> & _)]; done.
  - revert c w. induction actions as [| a actions IH]; intros c w Hno; [done |].
    rewrite component_of_run_cons.
    destruct (IH (component_of (dispatch a c w)) (world_of (dispatch a c w)))
      as [-> ->]; [intros Hin; apply Hno; by right |].
    destruct (dispatch_isInitialized a c w) as [-> | (-> & _)];
      [| exfalso; apply Hno; by left].
    destruct (dispatch_peerID a c w) as [-> | (-> & _)]; [done |].
    exfalso. apply Hno. by left.
  - intros Hinit.
    assert (Hinv : isInitialized (refs c) = true \/ peerID (refs c) = JStr [])
      by (right; by rewrite Hinit).
    apply (run_invariant
             (fun c => isInitialized (refs c) = true \/ peerID (refs c) = JStr [])
             ) with (actions := actions) (w := w) in Hinv.
    + intros Hfalse. destruct Hinv as [Htrue | Hid]; [congruence | exact Hid].
    + clear. intros a c w [Htrue | Hid].
      * left. destruct (dispatch_isInitialized a c w) as [-> | (_ & -> & _)]; done.
      * destruct (dispatch_peerID a c w) as [-> | (_ & Htrue)]; [by right | by left].
Qed.

(** What happens in the background leaves the user's input alone: a
    timer firing, an incoming chat message and the mount itself change
    none of the three input boxes, neither dialog flag, nor the current
    room. *)
Theorem background_keeps_input (a : Action) (c : Component) (w : W) :
  a = Mounted \/ (exists cb, a = Timer cb) \/ (exists payload, a = ChatMessage payload) ->
  let c' := component_of (dispatch a c w) in
  inputMessage (refs c') = inputMessage (refs c)
  /\ roomInput (refs c') = roomInput (refs c)
  /\ peerAddressInput (refs c') = peerAddressInput (refs c)
  /\ joinRoomMode (refs c') = joinRoomMode (refs c)
  /\ connectPeerMode (refs c') = connectPeerMode (refs c)
  /\ currentRoom (refs c') = currentRoom (refs c).
Proof.
  intros [-> | [[cb ->] | [payload ->]]]; run_handler; repeat split.
Qed.

(** When [init_p2p] rejects, [initP2P] shows one System message with the
    error after ["Failed to initialize P2P node: "] and stops: the
    component stays uninitialised with its peer id untouched, nothing is
    polled and no timer is set, so the Send button stays disabled
    whatever is typed. *)
Theorem initP2P_failure (c : Component) (w w' : W) (e : JsVal) :
  rt_invoke (lit "init_p2p") None w = (Reject e, w') ->
  initP2P c w
  = (tt,
     mkComponent
       (push_message
          (JObj [(lit "from", JStr (lit "System"));
                 (lit "content",
                  JStr (concat (0x274C%N :: lit " Failed to initialize P2P node: ")
                               (to_string e)));
                 (lit "timestamp", JStr (rt_now_iso w'));
                 (lit "is_self", JBool false)])
          (refs c))
       (unlisten c),
     w',
     [EInvoke (lit "init_p2p") None;
      EConsoleError (lit "Failed to initialize P2P:") (Rejected e);
      EScrollToBottom])
  /\ (isInitialized (refs c) = false ->
      forall text,
        View.send_disabled
          (set_inputMessage text (refs (component_of (initP2P c w)))) = true).
Proof.
  intros Hno.
  assert (Hrun : initP2P c w
                 = (tt,
                    mkComponent
                      (push_message
                         (JObj [(lit "from", JStr (lit "System"));
                                (lit "content",
                                 JStr (concat
                                         (0x274C%N :: lit " Failed to initialize P2P node: ")
                                         (to_string e)));
                                (lit "timestamp", JStr (rt_now_iso w'));
                                (lit "is_self", JBool false)])
                         (refs c))
                      (unlisten c),
                    w',
                    [EInvoke (lit "init_p2p") None;
                     EConsoleError (lit "Failed to initialize P2P:") (Rejected e);
                     EScrollToBottom])).
  { unfold initP2P, h_bind at 1, invoke at 1. by rewrite Hno. }
  split; [exact Hrun |]. intros Hfalse text. rewrite Hrun.
  unfold View.send_disabled. simpl. by rewrite Hfalse.
Qed.

End Invariants.

Section Lifecycle.
Context {W : Type} `{RT : Runtime W}.






End Lifecycle.

Section Rendering.
Context {W : Type} `{RT : Runtime W}.

Lemma sendMessage_invokes (c : Component) (w : W) :
  truthy (trim (inputMessage (refs c))) = true ->
  invocations (trace_of (sendMessage c w))
  = [(lit "send_message",
      Some (JObj [(lit "message", JStr (inputMessage (refs c)))]))].
Proof.
  intros Hin. unfold sendMessage, h_bind at 1, read. rewrite Hin.
  run_handler; reflexivity.
Qed.

(** The Send button and [sendMessage] agree on blank text: whenever the
    button is enabled the handler does call [send_message] with the text
    in the box, and whenever the handler would return early the button is
    disabled.  Initialisation is checked by the template alone: the
    button and the box are disabled before it, but [sendMessage] itself,
    once called, sends even then. *)
Theorem send_button_guard (c : Component) (w : W) :
  (View.send_disabled (refs c) = false ->
   isInitialized (refs c) = true
   /\ invocations (trace_of (sendMessage c w))
      = [(lit "send_message",
          Some (JObj [(lit "message", JStr (inputMessage (refs c)))]))])
  /\ (truthy (trim (inputMessage (refs c))) = false ->
      View.send_disabled (refs c) = true /\ sendMessage c w = (tt, c, w, []))
  /\ (View.input_disabled (refs c) = true -> View.send_disabled (refs c) = true)
  /\ (isInitialized (refs c) = false ->
      truthy (trim (inputMessage (refs c))) = true ->
      View.send_disabled (refs c) = true
      /\ invocations (trace_of (sendMessage c w))
         = [(lit "send_message",
             Some (JObj [(lit "message", JStr (inputMessage (refs c)))]))]).
Proof.
  unfold View.send_disabled, View.input_disabled.
  split; [| split; [| split]].
  - intros Hon. apply orb_false_elim in Hon as [Hinit Htext].
    apply negb_false_iff in Hinit, Htext. split; [exact Hinit |].
    by apply sendMessage_invokes.
  - intros Hblank. rewrite Hblank, orb_true_r. split; [reflexivity |].
    unfold sendMessage, h_bind, read. by rewrite Hblank.
  - intros ->. reflexivity.
  - intros Hinit Htext. rewrite Hinit. split; [reflexivity |].
    by apply sendMessage_invokes.
Qed.

(** The class of a message row.  A message pushed by [addSystemMessage]
    is always a ['system'] row.  Any payload whose [is_self] is truthy is
    a ['self'] row, also one that says it is from ['System']; a payload
    from ['System'] whose [is_self] is falsy is a ['system'] row, whoever
    sent it; anything else is a ['peer'] row.  Rendering fails only for
    a payload that is [null] or [undefined], and then for every such
    payload. *)
Theorem message_class_cases (text : jsstring) (c : Component) (w : W) :
  (View.message_class <$> last (messages (refs (component_of (addSystemMessage text c w))))
   = Some (Some (lit "system")))
  /\ (forall msg, View.message_class msg = None <-> msg = JUndefined \/ msg = JNull)
  /\ (forall msg cls,
        View.message_class msg = Some cls ->
        cls = lit "self" \/ cls = lit "system" \/ cls = lit "peer")
  /\ (forall props,
        View.to_boolean (lookup_prop (lit "is_self") props) = true ->
        View.message_class (JObj props) = Some (lit "self"))
  /\ (forall props,
        View.to_boolean (lookup_prop (lit "is_self") props) = false ->
        View.message_class (JObj props)
        = Some (if View.is_string (lookup_prop (lit "from") props) (lit "System")
                then lit "system" else lit "peer"))
  /\ (forall sender body stamp,
        View.message_class
          (JObj [(lit "from", JStr sender); (lit "content", JStr body);
                 (lit "timestamp", JStr stamp); (lit "is_self", JBool false)])
        = Some (lit "system")
        <-> sender = lit "System").
Proof.
  split; [| split; [| split; [| split; [| split]]]].
  - rewrite addSystemMessage_run. unfold component_of, push_message. simpl.
    by rewrite last_snoc.
  - intros msg. unfold View.message_class, get_prop. split.
    + destruct msg; try (intros _; tauto);
        try (simpl; discriminate).
      destruct (View.to_boolean _); discriminate.
    + by intros [-> | ->].
  - intros msg cls. unfold View.message_class.
    destruct (get_prop msg (lit "is_self")) as [flag |]; [| discriminate].
    destruct (View.to_boolean flag); [intros [= <-]; tauto |].
    destruct (get_prop msg (lit "from")) as [from |]; [| discriminate].
    destruct (View.is_string from _); intros [= <-]; tauto.
  - intros props Hself. unfold View.message_class, get_prop. by rewrite Hself.
  - intros props Hself. unfold View.message_class, get_prop. by rewrite Hself.
  - intros sender body stamp.
    change (View.message_class _)
      with (Some (if bool_decide (sender = lit "System")
                  then lit "system" else lit "peer")).
    destruct (bool_decide_reflect (sender = lit "System")) as [Heq | Hne].
    + done.
    + split; [| done]. intros [=].
Qed.

End Rendering.

Lemma shortPeerID_over_16 (id : jsstring) :
  16 < js_length id ->
  shortPeerID id = take 8 id ++ lit "..." ++ drop (length id - 6) id.
Proof.
  intros Hlen. unfold shortPeerID.
  destruct (Z.ltb_spec 16 (js_length id)); [| lia].
  rewrite substring_prefix, substring_suffix by lia.
  unfold concat. rewrite <- app_assoc.
  by replace (Z.to_nat (js_length id - 6)) with (length id - 6)%nat
    by (unfold js_length; lia).
Qed.

(** Shortening a peer id twice changes nothing more, the result is never
    longer than the id and never longer than 17 units, and it always
    starts with the id's first 8 units (or all of them, if fewer). *)
Theorem shortPeerID_idempotent (id : jsstring) :
  shortPeerID (shortPeerID id) = shortPeerID id
  /\ js_length (shortPeerID id) <= 17
  /\ js_length (shortPeerID id) <= js_length id
  /\ take 8 (shortPeerID id) = take 8 id.
Proof.
  destruct (Z.ltb_spec 16 (js_length id)) as [Hlong | Hshort].
  - assert (Hl : (16 < length id)%nat) by (unfold js_length in *; lia).
    pose proof (shortPeerID_over_16 id Hlong) as Heq.
    assert (H8 : length (take 8 id) = 8%nat) by (rewrite length_take; lia).
    assert (H6 : length (drop (length id - 6) id) = 6%nat)
      by (rewrite length_drop; lia).
    assert (H17 : length (shortPeerID id) = 17%nat).
    { rewrite Heq, !length_app, H8, H6. reflexivity. }
    split; [| split; [| split]].
    + rewrite (shortPeerID_over_16 (shortPeerID id))
        by (unfold js_length; lia).
      rewrite H17, Heq.
      rewrite (take_app_length' (take 8 id)) by (by rewrite H8).
      do 2 f_equal. rewrite app_assoc. apply drop_app_length'.
      by rewrite length_app, H8.
    + unfold js_length. lia.
    + unfold js_length. lia.
    + rewrite Heq. rewrite take_app_length'; [reflexivity | by rewrite H8].
  - assert (Hsame : shortPeerID id = id).
    { unfold shortPeerID. destruct (Z.ltb_spec 16 (js_length id)); [lia | done]. }
    rewrite !Hsame. repeat split; lia.
Qed.

(** ** These theorems at concrete inputs *)

Lemma updateNodeInfo_effect_witness :
  addresses (refs (component_of (updateNodeInfo Samples.at_setup
                                   (Scripted.script
                                      [Resolve (JObj [(lit "addresses",
                                                       JArr [JStr (lit "/ip4/1.2.3.4/tcp/1/p2p/Qm")])])]))))
  = JArr [JStr (lit "/ip4/1.2.3.4/tcp/1/p2p/Qm")]
  /\ connectedPeers (refs (component_of (updateNodeInfo Samples.at_setup
                                          (Scripted.script [Resolve (JObj [])]))))
     = JUndefined
  /\ component_of (updateNodeInfo Samples.typed Samples.stopped_clock) = Samples.typed
  /\ component_of (updateNodeInfo Samples.typed (Scripted.script [Resolve JNull]))
     = Samples.typed.
Proof.
  split; [| split; [| split]].
  - destruct (updateNodeInfo_effect Samples.at_setup
                (Scripted.script
                   [Resolve (JObj [(lit "addresses",
                                    JArr [JStr (lit "/ip4/1.2.3.4/tcp/1/p2p/Qm")])])]))
      as (_ & _ & _ & Hobj & _).
    destruct (Hobj _ _ eq_refl) as (Haddr & _). exact Haddr.
  - destruct (updateNodeInfo_effect Samples.at_setup (Scripted.script [Resolve (JObj [])]))
      as (_ & _ & _ & _ & Hempty & _).
    apply (proj2 (Hempty [] _ eq_refl)). apply not_elem_of_nil.
  - destruct (updateNodeInfo_effect Samples.typed Samples.stopped_clock)
      as (_ & _ & _ & _ & _ & Hno & _).
    exact (proj1 (Hno _ _ eq_refl)).
  - destruct (updateNodeInfo_effect Samples.typed (Scripted.script [Resolve JNull]))
      as (_ & _ & _ & _ & _ & _ & Hnull).
    exact (proj1 (Hnull JNull _ eq_refl (or_introl eq_refl))).
Defined.

Lemma handleKeydown_effect_witness :
  handleKeydown true (lit "J") Samples.typed Samples.stopped_clock
  = (tt, Samples.typed, Samples.stopped_clock, [])
  /\ handleKeydown false (lit "j") Samples.typed Samples.stopped_clock
     = (tt, Samples.typed, Samples.stopped_clock, [])
  /\ joinRoomMode
       (refs (component_of
                (handleKeydown true (lit "p")
                   (mkComponent (set_joinRoomMode true initial) false)
                   Samples.stopped_clock)))
     = true.
Proof.
  split; [| split].
  - apply (proj1 (handleKeydown_effect true (lit "J") Samples.typed
                    Samples.stopped_clock)).
    right. split; intros Heq; vm_compute in Heq; discriminate Heq.
  - apply (proj1 (handleKeydown_effect false (lit "j") Samples.typed
                    Samples.stopped_clock)).
    by left.
  - destruct (handleKeydown_effect true (lit "p")
                (mkComponent (set_joinRoomMode true initial) false)
                Samples.stopped_clock)
      as (_ & _ & _ & Hkeep & _).
    exact (Hkeep eq_refl).
Defined.

Lemma copyAddress_effect_witness :
  component_of
    (run [Copy (lit "/ip4/127.0.0.1/tcp/4001/p2p/12D3KooWAlice") 0;
          Timer CbResetCopied]
       Samples.at_setup Samples.stopped_clock)
  = Samples.at_setup
  /\ copyAddress (lit "/ip4/127.0.0.1/tcp/4001/p2p/12D3KooWAlice") 0
       Samples.at_setup (Scripted.script [Reject (JStr (lit "NotAllowedError"))])
     = (tt, Samples.at_setup, Scripted.script [],
        [EClipboardWrite (lit "/ip4/127.0.0.1/tcp/4001/p2p/12D3KooWAlice");
         EConsoleError (lit "Failed to copy:")
           (Rejected (JStr (lit "NotAllowedError")))])
  /\ View.copy_label
       (refs (component_of
                (run ([Copy (lit "a") 0; Copy (lit "b") 1] ++ [Timer CbResetCopied])
                   Samples.at_setup Samples.stopped_clock)))
       1
     = lit "Copy".
Proof.
  split; [| split].
  - destruct (copyAddress_effect (lit "/ip4/127.0.0.1/tcp/4001/p2p/12D3KooWAlice") 0
                Samples.at_setup Samples.stopped_clock) as (Hok & _).
    destruct (Hok JUndefined Samples.stopped_clock eq_refl) as (_ & _ & _ & Hback).
    exact (Hback eq_refl).
  - destruct (copyAddress_effect (lit "/ip4/127.0.0.1/tcp/4001/p2p/12D3KooWAlice") 0
                Samples.at_setup
                (Scripted.script [Reject (JStr (lit "NotAllowedError"))]))
      as (_ & Hno & _).
    exact (Hno _ _ eq_refl).
  - destruct (copyAddress_effect (lit "a") 0 Samples.at_setup Samples.stopped_clock)
      as (_ & _ & Hclear & _).
    apply Hclear. lia.
Defined.

Lemma joinRoom_success_witness :
  currentRoom
    (refs (component_of (joinRoom Samples.typed (Scripted.script [Resolve JNull]))))
  = lit "room1"
  /\ trace_of (run [Join; Join] Samples.typed (Scripted.script [Resolve JNull]))
     = [EInvoke (lit "join_room")
          (Some (JObj [(lit "roomName", JStr (lit "room1"))]))].
Proof.
  edestruct (joinRoom_success Samples.typed (Scripted.script [Resolve JNull])
               (Scripted.script []) JNull)
    as (Hrun & _ & Htwice & _); [reflexivity | reflexivity |].
  split; [by rewrite Hrun |]. rewrite Htwice, Hrun. reflexivity.
Defined.

Lemma connectToPeer_success_witness :
  peerAddressInput
    (refs (component_of (connectToPeer Samples.typed (Scripted.script [Resolve JNull]))))
  = []
  /\ trace_of (run [Connect; Connect] Samples.typed (Scripted.script [Resolve JNull]))
     = [EInvoke (lit "connect_to_peer")
          (Some (JObj [(lit "addr",
                        JStr (lit "/ip4/10.0.0.7/tcp/4001/p2p/12D3KooWBob"))]))].
Proof.
  edestruct (connectToPeer_success Samples.typed (Scripted.script [Resolve JNull])
               (Scripted.script []) JNull)
    as (Hrun & _ & _ & Htwice & _); [reflexivity | reflexivity |].
  split; [by rewrite Hrun |]. rewrite Htwice, Hrun. reflexivity.
Defined.

Lemma sendMessage_twice_witness :
  invocations
    (trace_of (run [Send; Send] Samples.typed (Scripted.script [Resolve JNull])))
  = [(lit "send_message", Some (JObj [(lit "message", JStr (lit "hello"))]))]
  /\ length
       (invocations
          (trace_of (run [Send; Send] Samples.typed Samples.stopped_clock)))
     = 2%nat.
Proof.
  split.
  - destruct (sendMessage_twice Samples.typed (Scripted.script [Resolve JNull])
                (Scripted.script []) eq_refl) as (Hok & _).
    apply (Hok JNull). reflexivity.
  - destruct (sendMessage_twice Samples.typed Samples.stopped_clock
                (Offline.mkWorld (lit "2025-01-01T00:00:00.000Z") 1) eq_refl)
      as (_ & Hno).
    rewrite (Hno (JStr (lit "backend unavailable"))); reflexivity.
Defined.


Lemma isInitialized_monotone_witness :
  isInitialized
    (refs (component_of
             (run [Unmounted; Timer CbUpdateNodeInfo]
                (component_of (mounted Samples.at_setup Samples.alice_world))
                Samples.alice_world)))
  = true
  /\ isInitialized
       (refs (component_of (run [Send; Timer CbUpdateNodeInfo] Samples.typed
                              Samples.stopped_clock)))
     = false
  /\ peerID
       (refs (component_of (run [Mounted; Send] Samples.at_setup
                              Samples.stopped_clock)))
     = JStr [].
Proof.
  split; [| split].
  - apply (proj1 (isInitialized_monotone [Unmounted; Timer CbUpdateNodeInfo]
                    (component_of (mounted Samples.at_setup Samples.alice_world))
                    Samples.alice_world)).
    reflexivity.
  - refine (proj1 (proj1 (proj2 (isInitialized_monotone
                                   [Send; Timer CbUpdateNodeInfo] Samples.typed
                                   Samples.stopped_clock)) _)).
    intros Hin.
    repeat (apply elem_of_cons in Hin as [Hin | Hin]; [discriminate Hin |]).
    by apply elem_of_nil in Hin.
  - apply (proj2 (proj2 (isInitialized_monotone [Mounted; Send] Samples.at_setup
                           Samples.stopped_clock))); reflexivity.
Defined.

Lemma background_keeps_input_witness :
  inputMessage
    (refs (component_of
             (dispatch (ChatMessage (JStr (lit "anything"))) Samples.typed
                Samples.stopped_clock)))
  = lit "hello"
  /\ roomInput
       (refs (component_of (dispatch Mounted Samples.typed Samples.alice_world)))
     = lit "room1".
Proof.
  split.
  - destruct (background_keeps_input (ChatMessage (JStr (lit "anything")))
                Samples.typed Samples.stopped_clock) as (Hmsg & _).
    + right. right. by eexists.
    + exact Hmsg.
  - destruct (background_keeps_input Mounted Samples.typed Samples.alice_world)
      as (_ & Hroom & _).
    + by left.
    + exact Hroom.
Defined.

Lemma initP2P_failure_witness :
  messages (refs (component_of (initP2P Samples.at_setup Samples.stopped_clock)))
  = [JObj [(lit "from", JStr (lit "System"));
           (lit "content",
            JStr (0x274C%N
                    :: lit " Failed to initialize P2P node: backend unavailable"));
           (lit "timestamp", JStr (lit "2025-01-01T00:00:00.000Z"));
           (lit "is_self", JBool false)]]
  /\ View.send_disabled
       (set_inputMessage (lit "hello")
          (refs (component_of (initP2P Samples.at_setup Samples.stopped_clock))))
     = true.
Proof.
  edestruct (initP2P_failure Samples.at_setup Samples.stopped_clock
               (Offline.mkWorld (lit "2025-01-01T00:00:00.000Z") 1)
               (JStr (lit "backend unavailable")))
    as (Hrun & Hoff); [reflexivity |].
  split; [by rewrite Hrun |]. apply Hoff. reflexivity.
Defined.


Lemma send_button_guard_witness :
  invocations
    (trace_of (sendMessage
                 (mkComponent (set_isInitialized true (refs Samples.typed)) false)
                 Samples.stopped_clock))
  = [(lit "send_message", Some (JObj [(lit "message", JStr (lit "hello"))]))]
  /\ View.send_disabled (refs Samples.blank) = true
  /\ View.send_disabled (refs Samples.typed) = true
  /\ invocations (trace_of (sendMessage Samples.typed Samples.stopped_clock))
     = [(lit "send_message", Some (JObj [(lit "message", JStr (lit "hello"))]))].
Proof.
  split; [| split; [| split]].
  - destruct (send_button_guard
                (mkComponent (set_isInitialized true (refs Samples.typed)) false)
                Samples.stopped_clock) as (Hon & _).
    exact (proj2 (Hon eq_refl)).
  - destruct (send_button_guard Samples.blank Samples.stopped_clock)
      as (_ & Hblank & _).
    exact (proj1 (Hblank eq_refl)).
  - destruct (send_button_guard Samples.typed Samples.stopped_clock)
      as (_ & _ & Hbox & _).
    exact (Hbox eq_refl).
  - destruct (send_button_guard Samples.typed Samples.stopped_clock)
      as (_ & _ & _ & Hearly).
    exact (proj2 (Hearly eq_refl eq_refl)).
Defined.

Lemma message_class_cases_witness :
  View.message_class
    (JObj [(lit "from", JStr (lit "System")); (lit "is_self", JBool true)])
  = Some (lit "self")
  /\ View.message_class (JObj [(lit "from", JStr (lit "12D3KooWBob"))])
     = Some (lit "peer")
  /\ View.message_class JNull = None
  /\ View.message_class
       (JObj [(lit "from", JStr (lit "System")); (lit "content", JStr (lit "hi"));
              (lit "timestamp", JStr (lit "2025-01-01T00:00:00.000Z"));
              (lit "is_self", JBool false)])
     = Some (lit "system").
Proof.
  destruct (message_class_cases [] Samples.at_setup Samples.stopped_clock)
    as (_ & Hnone & _ & Hself & Hother & Hsystem).
  split; [apply Hself; reflexivity |].
  split; [exact (Hother [(lit "from", JStr (lit "12D3KooWBob"))] eq_refl) |].
  split; [apply Hnone; by right |].
  apply Hsystem. reflexivity.
Defined.

Section Dialogs.
Context {W : Type} `{RT : Runtime W}.

Lemma scrolls_app (t1 t2 : list Effect) :
  scrolls (t1 ++ t2) = (scrolls t1 + scrolls t2)%nat.
Proof. unfold scrolls. by rewrite omap_app, length_app. Qed.

Lemma dispatch_scrolls (a : Action) (c : Component) (w : W) :
  length (messages (refs (component_of (dispatch a c w))))
  = (length (messages (refs c)) + scrolls (trace_of (dispatch a c w)))%nat.
Proof.
  destruct a; run_handler; unfold scrolls; simpl;
    rewrite ?length_app; simpl; lia.
Qed.

(** Every message that is pushed, by the listener or by
    [addSystemMessage], is followed by one call of [scrollToBottom], and
    nothing else scrolls: over any run the message list grows by exactly
    the number of scroll calls. *)
Theorem scroll_per_message (actions : list Action) (c : Component) (w : W) :
  length (messages (refs (component_of (run actions c w))))
  = (length (messages (refs c)) + scrolls (trace_of (run actions c w)))%nat.
Proof.
  revert c w. induction actions as [| a actions IH]; intros c w.
  - unfold component_of, trace_of, run, h_ret, scrolls. simpl. lia.
  - rewrite component_of_run_cons, trace_of_run_cons, scrolls_app, IH,
      dispatch_scrolls. lia.
Qed.

(** Closing a dialog by clicking outside it (or with Escape) keeps what
    was typed, so after reopening it Join or Connect still sends that
    text; the Cancel button empties the box, and after reopening Join or
    Connect calls nothing. *)
Theorem cancel_discards_dismiss_keeps (text : jsstring) (c : Component) (w : W) :
  truthy (trim text) = true ->
  invocations (trace_of (run [TypeRoom text; DismissJoin; Keydown true (lit "j"); Join] c w))
  = [(lit "join_room", Some (JObj [(lit "roomName", JStr text)]))]
  /\ invocations (trace_of (run [TypeRoom text; CancelJoin; Keydown true (lit "j"); Join] c w)) = []
  /\ invocations (trace_of (run [TypePeerAddress text; DismissConnect; Keydown true (lit "p"); Connect] c w))
     = [(lit "connect_to_peer", Some (JObj [(lit "addr", JStr text)]))]
  /\ invocations (trace_of (run [TypePeerAddress text; CancelConnect; Keydown true (lit "p"); Connect] c w))
     = [].
Proof.
  intros Htext. repeat split; unfold run; run_handler; congruence.
Qed.

End Dialogs.

Lemma cancel_discards_dismiss_keeps_witness :
  invocations
    (trace_of (run [TypeRoom (lit "room1"); DismissJoin; Keydown true (lit "j"); Join] Samples.at_setup
                 Samples.stopped_clock))
  = [(lit "join_room", Some (JObj [(lit "roomName", JStr (lit "room1"))]))]
  /\ invocations
       (trace_of (run [TypeRoom (lit "room1"); CancelJoin; Keydown true (lit "j"); Join] Samples.at_setup
                    Samples.stopped_clock))
     = [].
Proof.
  destruct (cancel_discards_dismiss_keeps (lit "room1") Samples.at_setup
              Samples.stopped_clock eq_refl) as (Hkeep & Hdrop & _).
  by split.
Defined.
